(** * CV8: the C bridge between a host language and the V8 engine

    A shallow embedding of [Sources/CV8/wrappers.cpp].  The engine itself is
    not part of the repository: it appears here as an interface, the types
    it works on ([Carriers]) and its operations ([Engine]), which act on an
    opaque engine heap.  The bridge functions are written in a small
    state-and-fault monad over a [world] that holds the engine heap, the C++
    heap of [Global<T>] cells, the caller's memory and a trace of the scopes
    entered and the engine calls made. *)

From Stdlib Require Import ZArith List Lia Bool String DecimalString.
From Stdlib.Strings Require Import Byte.
From stdpp Require Import base gmap strings list fin_maps infinite.

Local Open Scope Z_scope.

(** ** Pointers and caller memory *)

(** A [void*] is an address; [nullptr] is address 0. *)
Definition NULL : Z := 0.

(** [size_t] is 64 bits wide; an [int] passed where a [size_t] is expected
    is converted modulo 2^64. *)
Definition size_t_of_int (n : Z) : Z := n mod 2 ^ 64.

(** Byte memory is flat: an address maps to the byte stored there. *)
Definition memset (s : Z) (c : byte) (n : Z) (m : Z -> byte) : Z -> byte :=
  fun a => if (s <=? a) && (a <? s + n) then c else m a.

(** [memcpy dest src n]: the source region is given by its contents. *)
Definition memcpy (dest : Z) (src : list byte) (n : Z) (m : Z -> byte) : Z -> byte :=
  fun a => if (dest <=? a) && (a <? dest + n)
           then nth (Z.to_nat (a - dest)) src x00 else m a.

(** Pointer-sized slots ([void**] targets) live in their own typed memory. *)
Definition store (at_ : Z) (p : Z) (m : Z -> Z) : Z -> Z :=
  fun a => if a =? at_ then p else m a.

(** ** class ArrayBufferAllocator *)

Module ArrayBufferAllocator.
Section Allocator.

(** The system allocator ([malloc]/[free] of <stdlib.h>) and its bookkeeping
    are external. *)
Variable sysheap : Type.
Variable malloc : Z -> sysheap -> Z * sysheap.
Variable free : Z -> sysheap -> sysheap.

Definition AllocateUninitialized (length : Z) (st : sysheap * (Z -> byte))
  : Z * (sysheap * (Z -> byte)) :=
  let '(h, m) := st in
  let '(p, h') := malloc length h in
  (p, (h', m)).

Definition Allocate (length : Z) (st : sysheap * (Z -> byte))
  : Z * (sysheap * (Z -> byte)) :=
  let '(data, (h, m)) := AllocateUninitialized length st in
  if data =? NULL then (data, (h, m))
  else (data, (h, memset data x00 length m)).

Definition Free (data : Z) (st : sysheap * (Z -> byte)) : sysheap * (Z -> byte) :=
  let '(h, m) := st in (free data h, m).

End Allocator.
End ArrayBufferAllocator.

(** ** Scopes and engine calls, as observed in a trace *)

(** The RAII objects the bridge puts on the stack. *)
Inductive guard := Locker | TryCatch | IsolateScope | HandleScope | ContextScope.

(** The engine entry points the bridge calls. *)
Inductive native :=
  | N_ObjectTemplate_New | N_Context_New | N_Context_Global | N_Context_DetachGlobal
  | N_GlobalizeReference | N_DisposeGlobal | N_Local_New
  | N_String_NewFromUtf8 | N_Script_Compile | N_Script_Run | N_TryCatch_Exception
  | N_ToInteger | N_IntegerValue | N_Utf8Value
  | N_IsNull | N_IsUndefined | N_IsBoolean | N_IsNumber | N_IsString | N_IsObject
  | N_Integer_New | N_Int32Value | N_FunctionTemplate_New | N_Template_Set
  | N_ToObject | N_GetRealNamedProperty | N_ReturnValue_Set.

Inductive event :=
  | Enter (g : guard) (isolate : Z)
  | Leave (g : guard) (isolate : Z)
  | Call (n : native)
  | Dispatch (isolate id : Z) (values : list Z) (count : Z) (sink : Z).

Global Instance guard_eq_dec : EqDecision guard.
Proof. solve_decision. Defined.

(** The stack of guards held, innermost first. *)
Fixpoint subsequence (want have : list (guard * Z)) : bool :=
  match want, have with
  | [], _ => true
  | _ :: _, [] => false
  | x :: want', y :: have' =>
      if decide (x = y) then subsequence want' have' else subsequence want have'
  end.

(** An engine call is covered when, for some isolate, the lock was taken
    first, the isolate scope entered next and a handle scope opened last,
    and all three are still held. *)
Definition covered (held : list (guard * Z)) : bool :=
  existsb (fun gi => subsequence
             [(HandleScope, snd gi); (IsolateScope, snd gi); (Locker, snd gi)] held)
          held.

(** [discipline held evs] replays a trace: a guard may only be released when
    it is the innermost one held, and an engine call needs cover.  The result
    is the stack of guards still held, or [None] on a violation. *)
Fixpoint discipline (held : list (guard * Z)) (evs : list event)
  : option (list (guard * Z)) :=
  match evs with
  | [] => Some held
  | Enter g i :: evs' => discipline ((g, i) :: held) evs'
  | Leave g i :: evs' =>
      match held with
      | top :: held' => if decide (top = (g, i)) then discipline held' evs' else None
      | [] => None
      end
  | Call _ :: evs' => if covered held then discipline held evs' else None
  | Dispatch _ _ _ _ _ :: evs' => discipline held evs'
  end.

(** ** The engine, as the bridge sees it *)

(** What an engine operation that may run script code hands back: a result,
    a thrown exception, or nothing at all without an exception. *)
Inductive completion (V A : Type) :=
  | Normal (a : A)
  | Thrown (exception : V)
  | Nothing.
Arguments Normal {V A} a.
Arguments Thrown {V A} exception.
Arguments Nothing {V A}.

(** The types the engine works on: what a [Local<Value>], a [Local<Script>],
    a [Local<Context>], a [Local<ObjectTemplate>] and a
    [Local<FunctionTemplate>] refer to, the [double]s, and the engine's own
    heap. *)
Record Carriers := {
  value : Type;
  script : Type;
  context : Type;
  object_template : Type;
  function_template : Type;
  number : Type;
  engine_heap : Type;
}.

Set Implicit Arguments.

(** The operations the bridge calls, each acting on the engine heap.  Where
    an operation takes an argument of type [Z] first, that is the
    [Isolate*].  A handle that the API hands back empty on failure
    ([Script::Compile], [Script::Run], [ToInteger], [ToObject],
    [GetRealNamedProperty]) is a [completion]; the constructors that only
    allocate ([ObjectTemplate::New], [Context::New], [String::NewFromUtf8],
    [Integer::New], [FunctionTemplate::New]) are taken to succeed.  The
    callback of [FunctionTemplate::New] is always [callback], so only its
    data is passed.  [Utf8Value] is the constructor of [String::Utf8Value]:
    the converted bytes, or nothing when the conversion failed or the handle
    was empty.

    An operation that runs script code ([Script::Run], [ToInteger],
    [ToObject], [GetRealNamedProperty], [Utf8Value]) is described by the
    completion it comes back with and by what it leaves in the engine heap:
    the interface covers runs that come back and that do not call a
    function registered through [createFunction].  Such a call re-enters
    the bridge through [callback], which is given on its own below. *)
Record Engine (K : Carriers) := {
  ObjectTemplate_New : Z -> engine_heap K -> object_template K * engine_heap K;
  Context_New :
    Z -> object_template K -> option (value K) -> engine_heap K ->
    context K * engine_heap K;
  Context_Global : context K -> engine_heap K -> value K * engine_heap K;
  Context_DetachGlobal : context K -> engine_heap K -> unit * engine_heap K;
  String_NewFromUtf8 : Z -> string -> engine_heap K -> value K * engine_heap K;
  Script_Compile :
    value K -> engine_heap K -> completion (value K) (script K) * engine_heap K;
  Script_Run :
    script K -> context K -> engine_heap K ->
    completion (value K) (value K) * engine_heap K;
  Value_ToInteger :
    value K -> engine_heap K -> completion (value K) (value K) * engine_heap K;
  Value_IntegerValue : value K -> engine_heap K -> Z * engine_heap K;
  Utf8Value : option (value K) -> engine_heap K -> option (list byte) * engine_heap K;
  Value_IsNull : value K -> bool;
  Value_IsUndefined : value K -> bool;
  Value_IsBoolean : value K -> bool;
  Value_IsNumber : value K -> bool;
  Value_IsString : value K -> bool;
  Value_IsObject : value K -> bool;
  Integer_New : Z -> Z -> engine_heap K -> value K * engine_heap K;
  Value_Int32Value : value K -> engine_heap K -> Z * engine_heap K;
  FunctionTemplate_New :
    Z -> value K -> engine_heap K -> function_template K * engine_heap K;
  Template_Set :
    object_template K -> value K -> function_template K -> engine_heap K ->
    unit * engine_heap K;
  Value_ToObject :
    value K -> engine_heap K -> completion (value K) (value K) * engine_heap K;
  Object_GetRealNamedProperty :
    value K -> value K -> engine_heap K ->
    completion (value K) (value K) * engine_heap K;
}.

Unset Implicit Arguments.

Existing Class Engine.

(** ** The world the bridge runs in *)

Section World.
Context {K : Carriers}.

(** A [Global<T>] cell allocated with [new]. *)
Inductive persistent :=
  | OfValue (v : option (value K))
  | OfTemplate (t : object_template K)
  | OfContext (c : context K).

(** What a [ReturnValue<Value>] has been set to. *)
Inductive retval :=
  | SetUndefined | SetNull | SetBoolean (b : bool) | SetNumber (d : number K)
  | SetString (s : value K) | SetEmptyString.

Record world := {
  heap : engine_heap K;
  globals : gmap Z persistent;
  handlers : list (option (value K));
  returns : gmap Z retval;
  bytes : Z -> byte;
  slots : Z -> Z;
  trace : list event;
}.

Definition set_heap (h : engine_heap K) (w : world) : world :=
  {| heap := h; globals := globals w; handlers := handlers w; returns := returns w;
     bytes := bytes w; slots := slots w; trace := trace w |}.

Definition set_globals (g : gmap Z persistent) (w : world) : world :=
  {| heap := heap w; globals := g; handlers := handlers w; returns := returns w;
     bytes := bytes w; slots := slots w; trace := trace w |}.

Definition set_handlers (hs : list (option (value K))) (w : world) : world :=
  {| heap := heap w; globals := globals w; handlers := hs; returns := returns w;
     bytes := bytes w; slots := slots w; trace := trace w |}.

Definition set_returns (r : gmap Z retval) (w : world) : world :=
  {| heap := heap w; globals := globals w; handlers := handlers w; returns := r;
     bytes := bytes w; slots := slots w; trace := trace w |}.

Definition set_bytes (b : Z -> byte) (w : world) : world :=
  {| heap := heap w; globals := globals w; handlers := handlers w; returns := returns w;
     bytes := b; slots := slots w; trace := trace w |}.

Definition set_slots (s : Z -> Z) (w : world) : world :=
  {| heap := heap w; globals := globals w; handlers := handlers w; returns := returns w;
     bytes := bytes w; slots := s; trace := trace w |}.

Definition log (e : event) (w : world) : world :=
  {| heap := heap w; globals := globals w; handlers := handlers w; returns := returns w;
     bytes := bytes w; slots := slots w; trace := trace w ++ [e] |}.

(** A bridge function either returns or runs into undefined behaviour
    (a dereferenced empty handle, a dangling pointer, an over-read). *)
Inductive outcome (A : Type) :=
  | Ret (a : A) (w : world)
  | Fault (w : world).

Definition M (A : Type) : Type := world -> outcome A.

Definition ret {A} (a : A) : M A := fun w => Ret A a w.

Definition bind {A B} (m : M A) (k : A -> M B) : M B :=
  fun w => match m w with Ret _ a w' => k a w' | Fault _ w' => Fault B w' end.

Definition fault {A} : M A := fun w => Fault A w.

Definition final {A} (o : outcome A) : world :=
  match o with Ret _ _ w => w | Fault _ w => w end.

End World.

Arguments persistent K : clear implicits.
Arguments retval K : clear implicits.
Arguments world K : clear implicits.
Arguments outcome K A : clear implicits.
Arguments M K A : clear implicits.
Arguments Ret {K A} a w.
Arguments Fault {K A} w.

Notation "'do' x <- m ; k" := (bind m (fun x => k))
  (at level 10, x name, m at level 100, k at level 200).
Notation "m ;; k" := (bind m (fun _ => k))
  (at level 100, k at level 200, right associativity).

(** ** Primitives of the bridge *)

Section Bridge.
Context {K : Carriers} {E : Engine K}.

(** The host's dispatch function, resolved at link time:
    [swiftCallback(isolate, id, values, count, returnValue)]. *)
Variable swiftCallback : Z -> Z -> list Z -> Z -> Z -> M K unit.

Definition emit (e : event) : M K unit := fun w => Ret tt (log e w).

(** Constructor and destructor of a guard object.  A [TryCatch] also installs
    an exception handler for as long as it lives. *)
Definition enter (g : guard) (isolate : Z) : M K unit :=
  fun w => Ret tt (log (Enter g isolate)
                     match g with
                     | TryCatch => set_handlers (None :: handlers w) w
                     | _ => w
                     end).

Definition leave (g : guard) (isolate : Z) : M K unit :=
  fun w => Ret tt (log (Leave g isolate)
                     match g with
                     | TryCatch => set_handlers (tail (handlers w)) w
                     | _ => w
                     end).

(** A block that declares a guard object: the destructor runs when the block
    is left through any of its [return]s.  Undefined behaviour inside the
    block unwinds nothing. *)
Definition within {A} (g : guard) (isolate : Z) (body : M K A) : M K A :=
  enter g isolate ;; do r <- body ; leave g isolate ;; ret r.

(** A call into the engine. *)
Definition call {A} (n : native) (op : engine_heap K -> A * engine_heap K) : M K A :=
  fun w => let '(a, h) := op (heap w) in Ret a (set_heap h (log (Call n) w)).

(** An exception thrown by the engine lands in the innermost handler. *)
Definition raise (e : value K) (w : world K) : world K :=
  match handlers w with
  | _ :: hs => set_handlers (Some e :: hs) w
  | [] => w
  end.

(** A call whose result handle may come back empty. *)
Definition attempt {A} (n : native)
    (op : engine_heap K -> completion (value K) A * engine_heap K) : M K (option A) :=
  fun w => let '(c, h) := op (heap w) in
           let w' := set_heap h (log (Call n) w) in
           match c with
           | Normal a => Ret (Some a) w'
           | Thrown e => Ret None (raise e w')
           | Nothing => Ret None w'
           end.

(** [trycatch.Exception()] *)
Definition TryCatch_Exception : M K (option (value K)) :=
  fun w => Ret match handlers w with Some e :: _ => Some e | _ => None end
               (log (Call N_TryCatch_Exception) w).

(** [operator->] and [operator*] of a [Local<T>]: an empty handle holds a
    null pointer, and going through it is undefined. *)
Definition deref {A} (l : option A) : M K A :=
  match l with Some a => ret a | None => fault end.

Definition is_empty (c : persistent K) : bool :=
  match c with OfValue None => true | _ => false end.

Definition is_value (c : persistent K) : bool :=
  match c with OfValue _ => true | _ => false end.

Definition is_template (c : persistent K) : bool :=
  match c with OfTemplate _ => true | _ => false end.

Definition is_context (c : persistent K) : bool :=
  match c with OfContext _ => true | _ => false end.

(** [new Global<T>(isolate, local)]: the cell gets an address that is not
    null and not in use; the engine is asked for a persistent reference
    unless [local] is empty. *)
Definition new_Global (c : persistent K) : M K Z :=
  (if is_empty c then ret tt else emit (Call N_GlobalizeReference)) ;;
  fun w => let p := fresh ({[NULL]} ∪ dom (globals w)) in
           Ret p (set_globals (<[p := c]> (globals w)) w).

(** [reinterpret_cast<Global<Value>*>(p)->Get(isolate)]: a pointer that does
    not address a live cell of that type is undefined to use. *)
Definition Global_Get_Value (p : Z) : M K (option (value K)) :=
  fun w => match globals w !! p with
           | Some (OfValue (Some v)) => Ret (Some v) (log (Call N_Local_New) w)
           | Some (OfValue None) => Ret None w
           | _ => Fault w
           end.

Definition Global_Get_Template (p : Z) : M K (object_template K) :=
  fun w => match globals w !! p with
           | Some (OfTemplate t) => Ret t (log (Call N_Local_New) w)
           | _ => Fault w
           end.

Definition Global_Get_Context (p : Z) : M K (context K) :=
  fun w => match globals w !! p with
           | Some (OfContext c) => Ret c (log (Call N_Local_New) w)
           | _ => Fault w
           end.

(** [globalContext->Reset(isolate, newContext)]: the cell drops its old
    reference and takes a new one; its address stays. *)
Definition Global_Reset_Context (p : Z) (c : context K) : M K unit :=
  fun w => match globals w !! p with
           | Some (OfContext _) =>
               Ret tt (set_globals (<[p := OfContext c]> (globals w))
                         (log (Call N_GlobalizeReference) (log (Call N_DisposeGlobal) w)))
           | _ => Fault w
           end.

(** [delete reinterpret_cast<Global<T>*>(p)]: nothing for a null pointer;
    otherwise the destructor releases the reference, if any, and the cell is
    freed. *)
Definition delete_Global (of_type : persistent K -> bool) (p : Z) : M K unit :=
  if p =? NULL then ret tt
  else fun w => match globals w !! p with
                | Some c =>
                    if of_type c
                    then Ret tt (set_globals (delete p (globals w))
                                   (if is_empty c then w
                                    else log (Call N_DisposeGlobal) w))
                    else Fault w
                | None => Fault w
                end.

(** [*exception = p] *)
Definition store_exception (exception p : Z) : M K unit :=
  fun w => Ret tt (set_slots (store exception p (slots w)) w).

(** ** class GlobalValue *)

(** [GlobalValue scoped(isolate, value);] followed by the rest of the block.
    The members are constructed in the order of their declaration
    ([isolate_locker], [isolate_scope], [handle_scope]) and destroyed in the
    reverse order. *)
Definition GlobalValue {A} (isolate : Z) (body : M K A) : M K A :=
  within Locker isolate (within IsolateScope isolate (within HandleScope isolate body)).

(** ** The exported functions *)

Definition createTemplate (isolatePtr : Z) : M K Z :=
  let isolate := isolatePtr in
  within Locker isolate (within IsolateScope isolate (within HandleScope isolate (
    do globalObject <- call N_ObjectTemplate_New (ObjectTemplate_New E isolate) ;
    new_Global (OfTemplate globalObject)))).

Definition disposeTemplate (context_ : Z) : M K unit :=
  delete_Global is_template context_.

Definition createContext (isolatePtr templatePtr : Z) : M K Z :=
  let isolate := isolatePtr in
  let globalGlobalTemplate := templatePtr in
  within Locker isolate (within IsolateScope isolate (within HandleScope isolate (
    do globalTemplate <- Global_Get_Template globalGlobalTemplate ;
    do context_ <- call N_Context_New (Context_New E isolate globalTemplate None) ;
    new_Global (OfContext context_)))).

Definition disposeContext (context_ : Z) : M K unit :=
  delete_Global is_context context_.

(** The tail shared by [evaluate] and [getProperty]:
    [if (result.IsEmpty()) { if (exception != nullptr) { *exception = new
    Global<Value>(isolate, trycatch.Exception()); } return nullptr; }
    return new Global<Value>(isolate, result);] *)
Definition deliver (result : option (value K)) (exception : Z) : M K Z :=
  match result with
  | None =>
      (if exception =? NULL then ret tt
       else do e <- TryCatch_Exception ;
            do p <- new_Global (OfValue e) ;
            store_exception exception p) ;;
      ret NULL
  | Some local => new_Global (OfValue (Some local))
  end.

Definition evaluate (isolatePtr contextPtr : Z) (scriptPtr : string) (exception : Z)
  : M K Z :=
  let isolate := isolatePtr in
  let globalContext := contextPtr in
  within Locker isolate (within TryCatch isolate (
  within IsolateScope isolate (within HandleScope isolate (
    do context_ <- Global_Get_Context globalContext ;
    within ContextScope isolate (
      do source <- call N_String_NewFromUtf8 (String_NewFromUtf8 E isolate scriptPtr) ;
      do script_ <- attempt N_Script_Compile (Script_Compile E source) ;
      do compiled <- deref script_ ;
      do result <- attempt N_Script_Run (Script_Run E compiled context_) ;
      deliver result exception))))).

Definition disposeValue (pointer : Z) : M K unit :=
  delete_Global is_value pointer.

Definition valueToInt (isolate value_ : Z) : M K Z :=
  GlobalValue isolate (
    do scoped <- Global_Get_Value value_ ;
    do v <- deref scoped ;
    do integer <- attempt N_ToInteger (Value_ToInteger E v) ;
    do i <- deref integer ;
    call N_IntegerValue (Value_IntegerValue E i)).

(** [utf8.length()]: 0 when the conversion failed. *)
Definition utf8_length (utf8 : option (list byte)) : Z :=
  match utf8 with Some s => Z.of_nat (length s) | None => 0 end.

Definition getUtf8StringLength (isolate value_ : Z) : M K Z :=
  GlobalValue isolate (
    do scoped <- Global_Get_Value value_ ;
    do utf8 <- call N_Utf8Value (Utf8Value E scoped) ;
    ret (utf8_length utf8)).

(** [memcpy(buffer, *utf8, count)]: [*utf8] is null when the conversion
    failed, and otherwise addresses the converted bytes followed by a NUL;
    [count] is converted to [size_t]. *)
Definition copyUtf8String (isolate value_ buffer count : Z) : M K unit :=
  GlobalValue isolate (
    do scoped <- Global_Get_Value value_ ;
    do utf8 <- call N_Utf8Value (Utf8Value E scoped) ;
    match utf8 with
    | Some s =>
        let n := size_t_of_int count in
        if n <=? Z.of_nat (length s) + 1
        then fun w => Ret tt (set_bytes (memcpy buffer (s ++ [x00]) n (bytes w)) w)
        else fault
    | None => fault
    end).

Definition type_check (n : native) (test : value K -> bool) (isolate value_ : Z)
  : M K bool :=
  GlobalValue isolate (
    do scoped <- Global_Get_Value value_ ;
    do v <- deref scoped ;
    call n (fun h => (test v, h))).

Definition isNull := type_check N_IsNull (Value_IsNull E).

Definition isUndefined := type_check N_IsUndefined (Value_IsUndefined E).

Definition isBoolean := type_check N_IsBoolean (Value_IsBoolean E).

Definition isNumber := type_check N_IsNumber (Value_IsNumber E).

Definition isString := type_check N_IsString (Value_IsString E).

Definition isObject := type_check N_IsObject (Value_IsObject E).

(** What the engine hands to a function callback. *)
Record FunctionCallbackInfo := {
  Data : value K;
  GetIsolate : Z;
  arguments : list (value K);
  GetReturnValue : Z;
}.

(** [for (i = 0; i < args.Length(); i++)
      values[i] = new Global<Value>(isolate, args[i]);] *)
Fixpoint promote (isolate : Z) (args : list (value K)) : M K (list Z) :=
  match args with
  | [] => ret []
  | a :: rest =>
      do p <- new_Global (OfValue (Some a)) ;
      do ps <- promote isolate rest ;
      ret (p :: ps)
  end.

Definition callback (args : FunctionCallbackInfo) : M K unit :=
  do id <- call N_Int32Value (Value_Int32Value E (Data args)) ;
  let isolate := GetIsolate args in
  within HandleScope isolate (
    do values <- promote isolate (arguments args) ;
    let returnValue := GetReturnValue args in
    let count := Z.of_nat (length (arguments args)) in
    emit (Dispatch isolate id values count returnValue) ;;
    swiftCallback isolate id values count returnValue).

(** The two arguments of [globalTemplate->Set] are evaluated left to right
    here; C++ leaves their order open, and both only allocate. *)
Definition createFunction (isolatePtr contextPtr templatePtr : Z) (namePtr : string)
    (id : Z) : M K unit :=
  let isolate := isolatePtr in
  let globalContext := contextPtr in
  let globalGlobalTemplate := templatePtr in
  within Locker isolate (within IsolateScope isolate (within HandleScope isolate (
    do data <- call N_Integer_New (Integer_New E isolate id) ;
    do globalTemplate <- Global_Get_Template globalGlobalTemplate ;
    do name <- call N_String_NewFromUtf8 (String_NewFromUtf8 E isolate namePtr) ;
    do function <- call N_FunctionTemplate_New (FunctionTemplate_New E isolate data) ;
    call N_Template_Set (Template_Set E globalTemplate name function) ;;
    do context_ <- Global_Get_Context globalContext ;
    do globalObject <- call N_Context_Global (Context_Global E context_) ;
    call N_Context_DetachGlobal (Context_DetachGlobal E context_) ;;
    do newContext <- call N_Context_New
                       (Context_New E isolate globalTemplate (Some globalObject)) ;
    Global_Reset_Context globalContext newContext))).

Definition ReturnValue_Set (returnValuePtr : Z) (r : retval K) : M K unit :=
  fun w => Ret tt (set_returns (<[returnValuePtr := r]> (returns w))
                     (log (Call N_ReturnValue_Set) w)).

Definition setReturnValueUndefined (isolatePtr returnValuePtr : Z) : M K unit :=
  ReturnValue_Set returnValuePtr SetUndefined.

Definition setReturnValueNull (isolatePtr returnValuePtr : Z) : M K unit :=
  ReturnValue_Set returnValuePtr SetNull.

Definition setReturnValueBoolean (isolatePtr returnValuePtr : Z) (b : bool) : M K unit :=
  ReturnValue_Set returnValuePtr (SetBoolean b).

Definition setReturnValueNumber (isolatePtr returnValuePtr : Z) (d : number K)
  : M K unit :=
  ReturnValue_Set returnValuePtr (SetNumber d).

Definition setReturnValueString (isolatePtr returnValuePtr : Z) (utf8 : string)
  : M K unit :=
  let isolate := isolatePtr in
  do s <- call N_String_NewFromUtf8 (String_NewFromUtf8 E isolate utf8) ;
  ReturnValue_Set returnValuePtr (SetString s).

Definition setReturnValueEmptyString (isolatePtr returnValuePtr : Z) : M K unit :=
  ReturnValue_Set returnValuePtr SetEmptyString.

Definition getProperty (isolatePtr valuePtr : Z) (keyPtr : string) (exception : Z)
  : M K Z :=
  let isolate := isolatePtr in
  within Locker isolate (within TryCatch isolate (
  within IsolateScope isolate (within HandleScope isolate (
    do local <- Global_Get_Value valuePtr ;
    do v <- deref local ;
    do object <- attempt N_ToObject (Value_ToObject E v) ;
    do key <- call N_String_NewFromUtf8 (String_NewFromUtf8 E isolate keyPtr) ;
    do o <- deref object ;
    do result <- attempt N_GetRealNamedProperty (Object_GetRealNamedProperty E o key) ;
    deliver result exception)))).

(** ** The operations that touch isolate-native state *)

Inductive operation :=
  | Op_createTemplate (isolate : Z)
  | Op_createContext (isolate template : Z)
  | Op_evaluate (isolate context_ : Z) (source : string) (exception : Z)
  | Op_valueToInt (isolate value_ : Z)
  | Op_getUtf8StringLength (isolate value_ : Z)
  | Op_copyUtf8String (isolate value_ buffer count : Z)
  | Op_isNull (isolate value_ : Z)
  | Op_isUndefined (isolate value_ : Z)
  | Op_isBoolean (isolate value_ : Z)
  | Op_isNumber (isolate value_ : Z)
  | Op_isString (isolate value_ : Z)
  | Op_isObject (isolate value_ : Z)
  | Op_createFunction (isolate context_ template : Z) (name : string) (id : Z)
  | Op_getProperty (isolate value_ : Z) (key : string) (exception : Z)
  | Op_disposeTemplate (pointer : Z)
  | Op_disposeContext (pointer : Z)
  | Op_disposeValue (pointer : Z).

Definition discard {A} (m : M K A) : M K unit := do _x <- m ; ret tt.

Definition perform (o : operation) : M K unit :=
  match o with
  | Op_createTemplate i => discard (createTemplate i)
  | Op_createContext i t => discard (createContext i t)
  | Op_evaluate i c s x => discard (evaluate i c s x)
  | Op_valueToInt i v => discard (valueToInt i v)
  | Op_getUtf8StringLength i v => discard (getUtf8StringLength i v)
  | Op_copyUtf8String i v b n => copyUtf8String i v b n
  | Op_isNull i v => discard (isNull i v)
  | Op_isUndefined i v => discard (isUndefined i v)
  | Op_isBoolean i v => discard (isBoolean i v)
  | Op_isNumber i v => discard (isNumber i v)
  | Op_isString i v => discard (isString i v)
  | Op_isObject i v => discard (isObject i v)
  | Op_createFunction i c t n k => createFunction i c t n k
  | Op_getProperty i v k x => discard (getProperty i v k x)
  | Op_disposeTemplate p => disposeTemplate p
  | Op_disposeContext p => disposeContext p
  | Op_disposeValue p => disposeValue p
  end.

Definition disposes (o : operation) : bool :=
  match o with
  | Op_disposeTemplate _ | Op_disposeContext _ | Op_disposeValue _ => true
  | _ => false
  end.

(** The value an action returns, if it returns. *)
Definition returned {A} (o : outcome K A) : option A :=
  match o with Ret a _ => Some a | Fault _ => None end.

(** The events an action adds to the trace. *)
Definition events_of {A} (m : M K A) (w : world K) : list event :=
  drop (length (trace w)) (trace (final (m w))).

End Bridge.

(** ** A miniature engine

    A small, executable instance of [Engine], used to run the bridge on
    concrete inputs.  It knows a handful of scripts and follows, on them,
    what v8.h documents for the calls the bridge makes:
    - [Script::Compile] of a text that does not parse hands back an empty
      handle and leaves a SyntaxError with the innermost [TryCatch];
    - [GetRealNamedProperty]: if the result is empty, no real property was
      located on the object or in its prototype chain; no exception is
      pending then;
    - [Context::New] with a global object to reuse: the state of the global
      object is completely reset and only its identity remains. *)

Module Mini.

Inductive jsvalue :=
  | JUndefined
  | JNull
  | JBoolean (b : bool)
  | JInteger (n : Z)
  | JString (s : string)
  | JObject (o : nat)
  | JFunction (data : Z)
  | JError (message : string).

Inductive property :=
  | Data_ (v : jsvalue)
  | Getter_throws (e : jsvalue).

Inductive program :=
  | Literal (v : jsvalue)
  | ThrowStatement (e : jsvalue)
  | Assign (name : string) (v : jsvalue)
  | Identifier (name : string)
  | ObjectLiteral (props : list (string * property)).

Record jscontext := { global_object : nat }.

(** Objects and templates are numbered by their position. *)
Record jsheap := {
  objects : list (list (string * property));
  templates : list (list (string * Z));
}.

Fixpoint assoc {A} (k : string) (l : list (string * A)) : option A :=
  match l with
  | [] => None
  | (k', a) :: l' => if String.eqb k k' then Some a else assoc k l'
  end.

(** The scripts of the miniature language; every other text is rejected by
    its compiler. *)
Definition parse (source : string) : option program :=
  assoc source
    [ ("40 + 2", Literal (JInteger 42));
      ("null", Literal JNull);
      ("undefined", Literal JUndefined);
      ("'ab'", Literal (JString "ab"));
      ("x()", ThrowStatement (JError "ReferenceError: x is not defined"));
      ("g = 7", Assign "g" (JInteger 7));
      ("g", Identifier "g");
      ("f", Identifier "f");
      ("({})", ObjectLiteral []);
      ("({get boom() { throw 1 }})", ObjectLiteral [("boom", Getter_throws (JInteger 1))])
    ]%string.

Definition wrap32 (k : Z) : Z := (k + 2 ^ 31) mod 2 ^ 32 - 2 ^ 31.

Definition instantiate (slots_ : list (string * Z)) : list (string * property) :=
  map (fun s => (fst s, Data_ (JFunction (snd s)))) slots_.

Definition mini_ObjectTemplate_New (isolate : Z) (h : jsheap) : nat * jsheap :=
  (length (templates h),
   {| objects := objects h; templates := templates h ++ [[]] |}).

Definition mini_Context_New (isolate : Z) (t : nat) (reuse : option jsvalue) (h : jsheap)
  : jscontext * jsheap :=
  let fresh_state := instantiate (default [] (templates h !! t)) in
  match reuse with
  | Some (JObject o) =>
      ({| global_object := o |},
       {| objects := <[o := fresh_state]> (objects h); templates := templates h |})
  | _ =>
      ({| global_object := length (objects h) |},
       {| objects := objects h ++ [fresh_state]; templates := templates h |})
  end.

Definition mini_Context_Global (c : jscontext) (h : jsheap) : jsvalue * jsheap :=
  (JObject (global_object c), h).

Definition mini_Context_DetachGlobal (c : jscontext) (h : jsheap) : unit * jsheap :=
  (tt, h).

Definition mini_String_NewFromUtf8 (isolate : Z) (s : string) (h : jsheap)
  : jsvalue * jsheap :=
  (JString s, h).

Definition mini_Script_Compile (source : jsvalue) (h : jsheap)
  : completion jsvalue program * jsheap :=
  match source with
  | JString s =>
      match parse s with
      | Some p => (Normal p, h)
      | None => (Thrown (JError "SyntaxError: Unexpected end of input"), h)
      end
  | _ => (Thrown (JError "SyntaxError: Unexpected end of input"), h)
  end.

Definition mini_Script_Run (p : program) (c : jscontext) (h : jsheap)
  : completion jsvalue jsvalue * jsheap :=
  let g := global_object c in
  match p with
  | Literal v => (Normal v, h)
  | ThrowStatement e => (Thrown e, h)
  | Assign name v =>
      (Normal v,
       {| objects := <[g := (name, Data_ v) :: default [] (objects h !! g)]> (objects h);
          templates := templates h |})
  | Identifier name =>
      match assoc name (default [] (objects h !! g)) with
      | Some (Data_ v) => (Normal v, h)
      | Some (Getter_throws e) => (Thrown e, h)
      | None => (Thrown (JError ("ReferenceError: " ++ name ++ " is not defined")), h)
      end
  | ObjectLiteral props =>
      (Normal (JObject (length (objects h))),
       {| objects := objects h ++ [props]; templates := templates h |})
  end.

Definition mini_ToInteger (v : jsvalue) (h : jsheap)
  : completion jsvalue jsvalue * jsheap :=
  match v with
  | JInteger n => (Normal (JInteger n), h)
  | JBoolean true => (Normal (JInteger 1), h)
  | _ => (Normal (JInteger 0), h)
  end.

Definition mini_IntegerValue (v : jsvalue) (h : jsheap) : Z * jsheap :=
  match v with
  | JInteger n => (n, h)
  | _ => (0, h)
  end.

Definition mini_Utf8Value (l : option jsvalue) (h : jsheap)
  : option (list byte) * jsheap :=
  match l with
  | Some (JString s) => (Some (list_byte_of_string s), h)
  | Some JUndefined => (Some (list_byte_of_string "undefined"), h)
  | Some JNull => (Some (list_byte_of_string "null"), h)
  | Some (JBoolean true) => (Some (list_byte_of_string "true"), h)
  | Some (JBoolean false) => (Some (list_byte_of_string "false"), h)
  | Some (JError m) => (Some (list_byte_of_string m), h)
  | Some (JObject _) => (Some (list_byte_of_string "[object Object]"), h)
  | Some (JInteger n) =>
      (Some (list_byte_of_string (NilZero.string_of_int (Z.to_int n))), h)
  | Some (JFunction _) =>
      (Some (list_byte_of_string "function () { [native code] }"), h)
  | None => (None, h)
  end.

Definition mini_Int32Value (v : jsvalue) (h : jsheap) : Z * jsheap :=
  match v with
  | JInteger n => (wrap32 n, h)
  | JBoolean true => (1, h)
  | _ => (0, h)
  end.

Definition mini_FunctionTemplate_New (isolate : Z) (data : jsvalue) (h : jsheap)
  : Z * jsheap :=
  (fst (mini_Int32Value data h), h).

Definition mini_Template_Set (t : nat) (name : jsvalue) (f : Z) (h : jsheap)
  : unit * jsheap :=
  match name with
  | JString n =>
      (tt, {| objects := objects h;
              templates :=
                <[t := (n, f) :: default [] (templates h !! t)]> (templates h) |})
  | _ => (tt, h)
  end.

Definition mini_ToObject (v : jsvalue) (h : jsheap)
  : completion jsvalue jsvalue * jsheap :=
  match v with
  | JUndefined | JNull =>
      (Thrown (JError "TypeError: Cannot convert undefined or null to object"), h)
  | JObject _ | JFunction _ | JError _ => (Normal v, h)
  | _ => (Normal (JObject (length (objects h))),
          {| objects := objects h ++ [[]]; templates := templates h |})
  end.

Definition mini_GetRealNamedProperty (o key : jsvalue) (h : jsheap)
  : completion jsvalue jsvalue * jsheap :=
  match o, key with
  | JObject i, JString k =>
      match assoc k (default [] (objects h !! i)) with
      | Some (Data_ v) => (Normal v, h)
      | Some (Getter_throws e) => (Thrown e, h)
      | None => (Nothing, h)
      end
  | _, _ => (Nothing, h)
  end.

Definition mini_IsNull (v : jsvalue) : bool :=
  match v with JNull => true | _ => false end.

Definition mini_IsUndefined (v : jsvalue) : bool :=
  match v with JUndefined => true | _ => false end.

Definition mini_IsBoolean (v : jsvalue) : bool :=
  match v with JBoolean _ => true | _ => false end.

Definition mini_IsNumber (v : jsvalue) : bool :=
  match v with JInteger _ => true | _ => false end.

Definition mini_IsString (v : jsvalue) : bool :=
  match v with JString _ => true | _ => false end.

Definition mini_IsObject (v : jsvalue) : bool :=
  match v with JObject _ | JFunction _ | JError _ => true | _ => false end.

Definition mini_Integer_New (isolate : Z) (k : Z) (h : jsheap) : jsvalue * jsheap :=
  (JInteger k, h).

Definition carriers : Carriers := {|
  value := jsvalue;
  script := program;
  context := jscontext;
  object_template := nat;
  function_template := Z;
  number := Z;
  engine_heap := jsheap;
|}.

Definition engine : Engine carriers :=
  @Build_Engine carriers
    mini_ObjectTemplate_New
    mini_Context_New
    mini_Context_Global
    mini_Context_DetachGlobal
    mini_String_NewFromUtf8
    mini_Script_Compile
    mini_Script_Run
    mini_ToInteger
    mini_IntegerValue
    mini_Utf8Value
    mini_IsNull
    mini_IsUndefined
    mini_IsBoolean
    mini_IsNumber
    mini_IsString
    mini_IsObject
    mini_Integer_New
    mini_Int32Value
    mini_FunctionTemplate_New
    mini_Template_Set
    mini_ToObject
    mini_GetRealNamedProperty.

Global Existing Instance engine.

(** A host whose dispatch function answers every call with the string "ok". *)
Definition swiftCallback (isolate id : Z) (values : list Z) (count returnValue : Z)
  : M carriers unit :=
  setReturnValueString isolate returnValue "ok".

(** The world before anything was created. *)
Definition boot : world carriers :=
  @Build_world carriers {| objects := []; templates := [] |} ∅ [] ∅
    (fun _ => x00) (fun _ => NULL) [].

(** An isolate, and the address of a caller-owned exception slot. *)
Definition isolate : Z := 4096.

Definition exception_slot : Z := 512.

(** A template and a context on it: afterwards the template handle is 1 and
    the context handle is 2. *)
Definition setup : M carriers unit :=
  do t <- createTemplate isolate ;
  do c <- createContext isolate t ;
  ret tt.

Definition ready : world carriers := final (setup boot).

(** Worlds reached from [ready] by one more evaluation; the handle of the
    value it produced is 3. *)
Definition with_number : world carriers :=
  final (evaluate isolate 2 "40 + 2" NULL ready).

Definition with_string : world carriers :=
  final (evaluate isolate 2 "'ab'" NULL ready).

Definition with_object : world carriers :=
  final (evaluate isolate 2 "({})" NULL ready).

Definition with_getter : world carriers :=
  final (evaluate isolate 2 "({get boom() { throw 1 }})" NULL ready).


(** A script call with the arguments [1, "x"] of a function whose callback
    data is the integer 7; the return value of the call lives at 900. *)
Definition a_call : FunctionCallbackInfo (K:=carriers) :=
  @Build_FunctionCallbackInfo carriers (JInteger 7) isolate [JInteger 1; JString "x"] 900.


(** [ready] after two registrations, "f" with identifier 7 and then "h"
    with identifier 8. *)
Definition registered_twice : world carriers :=
  final (createFunction isolate 2 1 "h" 8
           (final (createFunction isolate 2 1 "f" 7 ready))).


(** [ready] after the script "null": handle 3 wraps the null value. *)
Definition with_null : world carriers :=
  final (evaluate isolate 2 "null" NULL ready).

(** [with_number] after its value handle was disposed. *)
Definition disposed : world carriers :=
  final (disposeValue 3 with_number).

(** [with_object] after a lookup of a key that is not there: the exception
    slot holds handle 4. *)
Definition looked_up : world carriers :=
  final (getProperty isolate 3 "missing" exception_slot with_object).

(** The guards held while [evaluate] runs a script. *)
Definition inside_evaluate : list (guard * Z) :=
  [(ContextScope, isolate); (HandleScope, isolate); (IsolateScope, isolate);
   (TryCatch, isolate); (Locker, isolate)].

End Mini.

(** ** Vocabulary of the specification *)

Section Vocabulary.
Context {K : Carriers} {E : Engine K}.

(** [keeps held m]: whatever [m] does, it only appends to the trace, and the
    appended events respect the guard discipline when replayed from the
    stack [held]; when [m] returns, the stack is back to [held]. *)
Definition keeps {A} (held : list (guard * Z)) (m : M K A) : Prop :=
  forall w, exists evs,
    trace (final (m w)) = trace w ++ evs /\
    match m w with
    | Ret _ _ => discipline held evs = Some held
    | Fault _ => is_Some (discipline held evs)
    end.

(** [starts pre m]: the events of [m] begin with [pre]. *)
Definition starts {A} (pre : list event) (m : M K A) : Prop :=
  forall w, exists evs, trace (final (m w)) = trace w ++ pre ++ evs.

(** The guards an operation takes before anything else, in order. *)
Definition acquired (o : operation) : list event :=
  match o with
  | Op_evaluate i _ _ _ | Op_getProperty i _ _ _ =>
      [Enter Locker i; Enter TryCatch i; Enter IsolateScope i; Enter HandleScope i]
  | Op_createTemplate i | Op_createContext i _ | Op_valueToInt i _
  | Op_getUtf8StringLength i _ | Op_copyUtf8String i _ _ _
  | Op_isNull i _ | Op_isUndefined i _ | Op_isBoolean i _
  | Op_isNumber i _ | Op_isString i _ | Op_isObject i _
  | Op_createFunction i _ _ _ _ =>
      [Enter Locker i; Enter IsolateScope i; Enter HandleScope i]
  | Op_disposeTemplate _ | Op_disposeContext _ | Op_disposeValue _ => []
  end.



(** Does the engine compile this source text? *)
Definition compiles (isolate : Z) (source : string) (h : engine_heap K) : bool :=
  let '(s, h1) := String_NewFromUtf8 E isolate source h in
  match fst (Script_Compile E s h1) with
  | Normal _ => true
  | _ => false
  end.

(** Does the engine turn this value into an object? *)
Definition coercible (v : value K) (h : engine_heap K) : bool :=
  match fst (Value_ToObject E v h) with
  | Normal _ => true
  | _ => false
  end.

(** The only writes of a call to caller memory: none to the bytes, and to
    the slots at most the exception slot, with a handle, when the call
    returns null and was given a slot. *)
Definition writes_only_exception (exception : Z) (w : world K) (o : outcome K Z) : Prop :=
  bytes (final o) = bytes w /\
  match o with
  | Ret r w' =>
      if (r =? NULL) && negb (exception =? NULL)
      then exists p, p <> NULL /\ slots w' = store exception p (slots w)
      else slots w' = slots w
  | Fault w' => slots w' = slots w
  end.

(** The bytes found in memory from an address on. *)
Definition read_bytes (m : Z -> byte) (from : Z) (n : nat) : list byte :=
  map (fun i => m (from + Z.of_nat i)) (seq 0 n).

(** The engine gives back, as a 32-bit integer, the number an [Integer] was
    made from. *)
Definition int32_roundtrip : Prop :=
  forall isolate k h d h', - 2 ^ 31 <= k < 2 ^ 31 ->
    Integer_New E isolate k h = (d, h') ->
    forall h'', Value_Int32Value E d h'' = (k, h'').


(** A value whose UTF-8 conversion is [S], whatever the engine heap. *)
Definition utf8_of (v : value K) (S : list byte) : Prop :=
  forall h, Utf8Value E (Some v) h = (Some S, h).

End Vocabulary.

(** ** Further vocabulary *)

Section Further.
Context {K : Carriers} {E : Engine K}.

(** Two worlds that differ at most in their trace. *)
Definition only_traced (w w' : world K) : Prop :=
  heap w' = heap w /\ globals w' = globals w /\ handlers w' = handlers w /\
  returns w' = returns w /\ bytes w' = bytes w /\ slots w' = slots w.

(** Two worlds with the same return value sinks and the same caller memory. *)
Definition same_caller_state (w w' : world K) : Prop :=
  returns w' = returns w /\ bytes w' = bytes w /\ slots w' = slots w.

(** The six ways a dispatch function can answer a call. *)
Inductive setter :=
  | Answer_Undefined
  | Answer_Null
  | Answer_Boolean (b : bool)
  | Answer_Number (d : number K)
  | Answer_String (utf8 : string)
  | Answer_EmptyString.

Definition answer (s : setter) (isolatePtr returnValuePtr : Z) : M K unit :=
  match s with
  | Answer_Undefined => setReturnValueUndefined isolatePtr returnValuePtr
  | Answer_Null => setReturnValueNull isolatePtr returnValuePtr
  | Answer_Boolean b => setReturnValueBoolean isolatePtr returnValuePtr b
  | Answer_Number d => setReturnValueNumber isolatePtr returnValuePtr d
  | Answer_String utf8 => setReturnValueString isolatePtr returnValuePtr utf8
  | Answer_EmptyString => setReturnValueEmptyString isolatePtr returnValuePtr
  end.

(** What a sink holds after an answer given on the engine heap [h]. *)
Definition answered (s : setter) (isolate : Z) (h : engine_heap K) : retval K :=
  match s with
  | Answer_Undefined => SetUndefined
  | Answer_Null => SetNull
  | Answer_Boolean b => SetBoolean b
  | Answer_Number d => SetNumber d
  | Answer_String utf8 => SetString (String_NewFromUtf8 E isolate utf8 h).1
  | Answer_EmptyString => SetEmptyString
  end.

End Further.

(** * Proofs *)

(** ** Replaying traces *)

Lemma subsequence_nil have : subsequence [] have = true.
Proof. by destruct have. Qed.

Lemma subsequence_here x want have :
  subsequence (x :: want) (x :: have) = subsequence want have.
Proof. simpl. by rewrite decide_True. Qed.

Lemma subsequence_skip x y want have :
  x <> y -> subsequence (x :: want) (y :: have) = subsequence (x :: want) have.
Proof. intros. simpl. by rewrite decide_False. Qed.

Lemma covered_by i g held :
  In (g, i) held ->
  subsequence [(HandleScope, i); (IsolateScope, i); (Locker, i)] held = true ->
  covered held = true.
Proof.
  intros Hin Hs. unfold covered. apply existsb_exists. exists (g, i). done.
Qed.

Lemma covered_three i held :
  covered ((HandleScope, i) :: (IsolateScope, i) :: (Locker, i) :: held) = true.
Proof.
  eapply covered_by; [simpl; left; reflexivity|].
  rewrite !subsequence_here. apply subsequence_nil.
Qed.

Lemma covered_with_trycatch i held :
  covered ((HandleScope, i) :: (IsolateScope, i) :: (TryCatch, i) :: (Locker, i) :: held)
  = true.
Proof.
  eapply covered_by; [simpl; left; reflexivity|].
  rewrite !subsequence_here. rewrite subsequence_skip by congruence.
  rewrite subsequence_here. apply subsequence_nil.
Qed.

Lemma covered_in_context i held :
  covered ((ContextScope, i) :: (HandleScope, i) :: (IsolateScope, i)
           :: (TryCatch, i) :: (Locker, i) :: held) = true.
Proof.
  eapply covered_by; [simpl; left; reflexivity|].
  rewrite subsequence_skip by congruence.
  rewrite !subsequence_here. rewrite subsequence_skip by congruence.
  rewrite subsequence_here. apply subsequence_nil.
Qed.

Lemma discipline_app held evs1 evs2 :
  discipline held (evs1 ++ evs2)
  = discipline held evs1 ≫= λ held', discipline held' evs2.
Proof.
  revert held. induction evs1 as [|e evs1 IH]; intros held; [done|].
  destruct e; simpl; auto.
  - destruct held as [|top held']; [done|]. case_decide; auto.
  - destruct (covered held); auto.
Qed.

Section Discipline.
Context {K : Carriers} {E : Engine K}.

Lemma raise_trace (e : value K) (w : world K) : trace (raise e w) = trace w.
Proof. unfold raise. by destruct (handlers w). Qed.

Lemma raise_bytes (e : value K) (w : world K) : bytes (raise e w) = bytes w.
Proof. unfold raise. by destruct (handlers w). Qed.

Lemma raise_slots (e : value K) (w : world K) : slots (raise e w) = slots w.
Proof. unfold raise. by destruct (handlers w). Qed.

Lemma raise_globals (e : value K) (w : world K) : globals (raise e w) = globals w.
Proof. unfold raise. by destruct (handlers w). Qed.

Lemma keeps_ret {A} held (a : A) : keeps (K:=K) held (ret a).
Proof. intros w. exists []. simpl. by rewrite app_nil_r. Qed.

Lemma keeps_fault {A} held : keeps (K:=K) (A:=A) held fault.
Proof. intros w. exists []. simpl. rewrite app_nil_r. split; [done|]. by eexists. Qed.

Lemma keeps_bind {A B} held (m : M K A) (k : A -> M K B) :
  keeps held m -> (forall a, keeps held (k a)) -> keeps held (do x <- m ; k x).
Proof.
  intros Hm Hk w. destruct (Hm w) as (evs1 & Ht1 & Hd1). unfold bind.
  destruct (m w) as [a w1|w1]; simpl in *.
  - destruct (Hk a w1) as (evs2 & Ht2 & Hd2). exists (evs1 ++ evs2).
    rewrite Ht2, Ht1, app_assoc. split; [done|].
    rewrite discipline_app, Hd1. simpl. done.
  - exists evs1. done.
Qed.

Lemma keeps_within {A} held g i (body : M K A) :
  keeps ((g, i) :: held) body -> keeps held (within g i body).
Proof.
  intros Hb w. unfold within, bind, enter, leave, ret.
  set (w1 := log (Enter g i) _).
  destruct (Hb w1) as (evs & Ht & Hd).
  assert (trace w1 = trace w ++ [Enter g i]) as Hw1 by (subst w1; by destruct g).
  clearbody w1.
  destruct (body w1) as [a w2|w2]; simpl in *.
  - exists (Enter g i :: evs ++ [Leave g i]). split.
    + destruct g; simpl; rewrite Ht, Hw1; by list_simplifier.
    + simpl. rewrite discipline_app, Hd. simpl. by rewrite decide_True.
  - exists (Enter g i :: evs). split; [|done].
    rewrite Ht, Hw1. by list_simplifier.
Qed.

Lemma keeps_call {A} held n (op : engine_heap K -> A * engine_heap K) :
  covered held = true -> keeps held (call n op).
Proof.
  intros Hc w. unfold call. destruct (op (heap w)) as [a h]. exists [Call n].
  simpl. by rewrite Hc.
Qed.

Lemma keeps_attempt {A} held n
    (op : engine_heap K -> completion (value K) A * engine_heap K) :
  covered held = true -> keeps held (attempt n op).
Proof.
  intros Hc w. unfold attempt. destruct (op (heap w)) as [[a|e|] h]; exists [Call n];
    simpl; rewrite ?raise_trace, Hc; done.
Qed.

Lemma keeps_deref {A} held (l : option A) : keeps (K:=K) held (deref l).
Proof. destruct l; [apply keeps_ret | apply keeps_fault]. Qed.

Lemma keeps_emit_call held n : covered held = true -> keeps (K:=K) held (emit (Call n)).
Proof. intros Hc w. exists [Call n]. simpl. by rewrite Hc. Qed.

Lemma keeps_new_Global held (c : persistent K) :
  covered held = true -> keeps held (new_Global c).
Proof.
  intros Hc. unfold new_Global. apply keeps_bind.
  - destruct (is_empty c); [apply keeps_ret | by apply keeps_emit_call].
  - intros _ w. exists []. simpl. by rewrite app_nil_r.
Qed.

Lemma keeps_Get_Value held p :
  covered held = true -> keeps (K:=K) held (Global_Get_Value p).
Proof.
  intros Hc w. unfold Global_Get_Value.
  destruct (globals w !! p) as [[[v|]|t|c]|]; simpl;
    first [ exists [Call N_Local_New]; simpl; rewrite Hc; done
          | exists []; rewrite app_nil_r; simpl; eauto ].
Qed.

Lemma keeps_Get_Template held p :
  covered held = true -> keeps (K:=K) held (Global_Get_Template p).
Proof.
  intros Hc w. unfold Global_Get_Template.
  destruct (globals w !! p) as [[[v|]|t|c]|]; simpl;
    first [ exists [Call N_Local_New]; simpl; rewrite Hc; done
          | exists []; rewrite app_nil_r; simpl; eauto ].
Qed.

Lemma keeps_Get_Context held p :
  covered held = true -> keeps (K:=K) held (Global_Get_Context p).
Proof.
  intros Hc w. unfold Global_Get_Context.
  destruct (globals w !! p) as [[[v|]|t|c]|]; simpl;
    first [ exists [Call N_Local_New]; simpl; rewrite Hc; done
          | exists []; rewrite app_nil_r; simpl; eauto ].
Qed.

Lemma keeps_Reset_Context held p c :
  covered held = true -> keeps (K:=K) held (Global_Reset_Context p c).
Proof.
  intros Hc w. unfold Global_Reset_Context.
  destruct (globals w !! p) as [[[v|]|t|c']|]; simpl;
    first [ exists [Call N_DisposeGlobal; Call N_GlobalizeReference]; simpl;
            rewrite Hc, <- app_assoc; done
          | exists []; rewrite app_nil_r; simpl; eauto ].
Qed.

Lemma keeps_TryCatch_Exception held :
  covered held = true -> keeps (K:=K) held TryCatch_Exception.
Proof. intros Hc w. exists [Call N_TryCatch_Exception]. simpl. by rewrite Hc. Qed.

Lemma keeps_store_exception held x p : keeps (K:=K) held (store_exception x p).
Proof. intros w. exists []. simpl. by rewrite app_nil_r. Qed.

Lemma keeps_deliver held result x :
  covered held = true -> keeps (K:=K) held (deliver result x).
Proof.
  intros Hc. unfold deliver. destruct result.
  - by apply keeps_new_Global.
  - apply keeps_bind; [|intros; apply keeps_ret].
    destruct (x =? NULL); [apply keeps_ret|].
    apply keeps_bind; [by apply keeps_TryCatch_Exception|intros].
    apply keeps_bind; [by apply keeps_new_Global|intros]. apply keeps_store_exception.
Qed.

Lemma keeps_copy held (utf8 : option (list byte)) buffer count :
  keeps (K:=K) held
    match utf8 with
    | Some s =>
        let n := size_t_of_int count in
        if n <=? Z.of_nat (length s) + 1
        then fun w => Ret tt (set_bytes (memcpy buffer (s ++ [x00]) n (bytes w)) w)
        else fault
    | None => fault
    end.
Proof.
  destruct utf8 as [s|]; [|apply keeps_fault]. simpl.
  destruct (_ <=? _); [|apply keeps_fault].
  intros w. exists []. simpl. by rewrite app_nil_r.
Qed.

Lemma keeps_discard {A} held (m : M K A) : keeps held m -> keeps held (discard m).
Proof. intros Hm. unfold discard. apply keeps_bind; [done|]. intros. apply keeps_ret. Qed.

Lemma keeps_appends {A} held (m : M K A) : keeps held m -> starts [] m.
Proof. intros Hm w. destruct (Hm w) as (evs & Ht & _). by exists evs. Qed.

Lemma starts_within {A} pre g i (body : M K A) :
  starts pre body -> starts (Enter g i :: pre) (within g i body).
Proof.
  intros Hb w. unfold within, bind, enter, leave, ret.
  set (w1 := log (Enter g i) _).
  assert (trace w1 = trace w ++ [Enter g i]) as Hw1 by (subst w1; by destruct g).
  clearbody w1. destruct (Hb w1) as (evs & Ht).
  destruct (body w1) as [a w2|w2]; simpl in *.
  - exists (evs ++ [Leave g i]). destruct g; simpl; rewrite Ht, Hw1; by list_simplifier.
  - exists evs. rewrite Ht, Hw1. by list_simplifier.
Qed.

Lemma starts_discard {A} pre (m : M K A) : starts pre m -> starts pre (discard m).
Proof.
  intros Hm w. destruct (Hm w) as (evs & Ht). exists evs.
  unfold discard, bind. by destruct (m w).
Qed.

Lemma both_within {A} pre held g i (body : M K A) :
  keeps ((g, i) :: held) body /\ starts pre body ->
  keeps held (within g i body) /\ starts (Enter g i :: pre) (within g i body).
Proof. intros [? ?]. split; [by apply keeps_within | by apply starts_within]. Qed.

Lemma both_discard {A} pre held (m : M K A) :
  keeps held m /\ starts pre m -> keeps held (discard m) /\ starts pre (discard m).
Proof. intros [? ?]. split; [by apply keeps_discard | by apply starts_discard]. Qed.

Lemma both_body {A} held (m : M K A) : keeps held m -> keeps held m /\ starts [] m.
Proof. intros ?. split; [done | by eapply keeps_appends]. Qed.

Lemma delete_Global_events of_type p (w : world K) :
  exists evs, trace (final (delete_Global of_type p w)) = trace w ++ evs /\
              (evs = [] \/ evs = [Call N_DisposeGlobal]).
Proof.
  unfold delete_Global. destruct (p =? NULL).
  { exists []. simpl. rewrite app_nil_r. auto. }
  destruct (globals w !! p) as [c|]; [|exists []; simpl; rewrite app_nil_r; auto].
  destruct (of_type c); [|exists []; simpl; rewrite app_nil_r; auto].
  destruct (is_empty c); simpl.
  - exists []. rewrite app_nil_r. auto.
  - exists [Call N_DisposeGlobal]. auto.
Qed.

(** C1, as the code has it.  Each of createTemplate, createContext,
    valueToInt, getUtf8StringLength, copyUtf8String, the is* predicates and
    createFunction first takes the isolate's lock, then enters the isolate
    scope, then opens a handle scope; evaluate and getProperty do the same
    with their try-catch installed between the lock and the isolate scope.
    Every engine call they make happens while lock, isolate scope and handle
    scope are held, and whenever they return the guards have been released
    in strict reverse order.  The dispose operations on templates, contexts
    and values take no lock and open no scope: at most they release the
    persistent reference. *)
Theorem guards_held_around_engine_calls (o : operation) :
  if disposes o
  then forall w : world K, exists evs,
         trace (final (perform o w)) = trace w ++ evs /\
         (evs = [] \/ evs = [Call N_DisposeGlobal])
  else keeps (K:=K) [] (perform o) /\ starts (K:=K) (acquired o) (perform o).
Proof.
  destruct o; simpl; try apply delete_Global_events.
  all: try apply both_discard.
  all: unfold createTemplate, createContext, evaluate, valueToInt, getUtf8StringLength,
         copyUtf8String, isNull, isUndefined, isBoolean, isNumber, isString, isObject,
         type_check, createFunction, getProperty, GlobalValue.
  all: repeat apply both_within.
  all: apply both_body.
  all: repeat first
         [ apply keeps_within
         | apply keeps_ret
         | apply keeps_fault
         | apply keeps_deref
         | apply keeps_store_exception
         | apply keeps_copy
         | apply keeps_call
         | apply keeps_attempt
         | apply keeps_new_Global
         | apply keeps_Get_Value
         | apply keeps_Get_Template
         | apply keeps_Get_Context
         | apply keeps_Reset_Context
         | apply keeps_deliver
         | apply covered_three
         | apply covered_with_trycatch
         | apply covered_in_context
         | apply keeps_bind; [|intros] ].
Qed.

End Discipline.

(** ** The allocator *)

(** C9.  For every requested length, [Allocate] returns what the system
    allocator returned: either NULL, with memory untouched, or a block whose
    first [length] bytes are all zero, nothing outside the block being
    written; [AllocateUninitialized] is the system allocator's [malloc]. *)
Theorem Allocate_zero_filled (sysheap : Type) (malloc : Z -> sysheap -> Z * sysheap)
    (length : Z) (h : sysheap) (m : Z -> byte) :
  ArrayBufferAllocator.AllocateUninitialized sysheap malloc length (h, m)
    = (fst (malloc length h), (snd (malloc length h), m)) /\
  let '(data, (h', m')) := ArrayBufferAllocator.Allocate sysheap malloc length (h, m) in
  (data, h') = malloc length h /\
  (data = NULL /\ m' = m \/
   data <> NULL /\
   (forall i, 0 <= i < length -> m' (data + i) = x00) /\
   (forall a, ~ (data <= a < data + length) -> m' a = m a)).
Proof.
  unfold ArrayBufferAllocator.Allocate, ArrayBufferAllocator.AllocateUninitialized.
  destruct (malloc length h) as [p h'] eqn:Hm. simpl. split; [done|].
  destruct (p =? NULL) eqn:Hp; split; try done.
  - left. split; [lia|done].
  - right. split; [lia|]. unfold memset. split.
    + intros i Hi.
      destruct (p <=? p + i) eqn:H1, (p + i <? p + length) eqn:H2; simpl; auto; lia.
    + intros a Ha.
      destruct (p <=? a) eqn:H1, (a <? p + length) eqn:H2; simpl; auto; lia.
Qed.

(** ** Results and exceptions of evaluate and getProperty *)

Ltac run :=
  cbv [evaluate getProperty within deliver bind enter leave ret fault deref
       call attempt emit new_Global store_exception TryCatch_Exception
       Global_Get_Context Global_Get_Value is_empty]; simpl.

Ltac crush := repeat (case_match; simpl in *; simplify_eq).



Section Outputs.
Context {K : Carriers} {E : Engine K}.

(** A cell made by [new] is at an address that is neither null nor in use. *)
Lemma fresh_handle (g : gmap Z (persistent K)) :
  fresh ({[NULL]} ∪ dom g) <> NULL /\ g !! fresh ({[NULL]} ∪ dom g) = None.
Proof.
  pose proof (is_fresh ({[NULL]} ∪ dom g)) as H. split; [set_solver|].
  apply not_elem_of_dom. set_solver.
Qed.

(** The shared tail of evaluate and getProperty returns a non-null handle
    and writes no slot when there is a result; without a result it returns
    null and writes the exception slot, with a non-null handle, only when
    the out-pointer is non-null, and nothing (no slot, no new cell) when it
    is null.  Over a whole call of evaluate or getProperty the bytes of the
    caller are never written, and the slots are written only at the
    exception slot, only when null is returned and a slot was given. *)
Theorem exception_slot_written_only_on_failure :
  (forall (result : option (value K)) (exception : Z) (w : world K),
     exists r w', deliver result exception w = Ret r w' /\
       bytes w' = bytes w /\
       match result with
       | Some _ => r <> NULL /\ slots w' = slots w
       | None => r = NULL /\
           if exception =? NULL then slots w' = slots w /\ globals w' = globals w
           else exists p, p <> NULL /\ slots w' = store exception p (slots w)
       end) /\
  (forall i c s x (w : world K), writes_only_exception x w (evaluate i c s x w)) /\
  (forall i v k x (w : world K), writes_only_exception x w (getProperty i v k x w)).
Proof.
  split; [|split].
  - intros result x w. run. destruct result as [v|]; simpl.
    + eexists _, _. split; [reflexivity|]. simpl. split; [done|]. split; [|done].
      apply fresh_handle.
    + destruct (x =? NULL) eqn:Hx; simpl.
      * eexists _, _. split; [reflexivity|]. simpl. auto.
      * crush; eexists _, _; (split; [reflexivity|]); simpl;
          (split; [done|]); (split; [done|]);
          eexists; (split; [|reflexivity]); apply fresh_handle.
  - intros i c s x w. unfold writes_only_exception. run.
    crush; rewrite ?raise_bytes, ?raise_slots; try done.
    all: try (split; [done|]).
    all: try (eexists; split; [|reflexivity]; apply fresh_handle).
    all: try (pose proof (fresh_handle (globals w)); simpl in *; lia).
  - intros i v k x w. unfold writes_only_exception. run.
    crush; rewrite ?raise_bytes, ?raise_slots; try done.
    all: try (split; [done|]).
    all: try (eexists; split; [|reflexivity]; apply fresh_handle).
    all: try (pose proof (fresh_handle (globals w)); simpl in *; lia).
Qed.


(** C3, what the code does instead.  When the engine does not compile the
    source, [Script::Compile] hands back an empty handle and evaluate calls
    [Run] through it: the call runs into undefined behaviour before the
    exception is looked at; no slot is written and no handle is made. *)
Theorem evaluate_faults_on_compile_failure (w : world K) (i c : Z) (s : string) (x : Z)
    (ctx : context K) :
  globals w !! c = Some (OfContext ctx) ->
  compiles i s (heap w) = false ->
  exists w', evaluate i c s x w = Fault w' /\
             slots w' = slots w /\ globals w' = globals w.
Proof.
  intros Hc Hs. unfold compiles in Hs. run. rewrite Hc. simpl.
  destruct (String_NewFromUtf8 E i s (heap w)) as [source h1]. simpl.
  destruct (Script_Compile E source h1) as [[p|e|] h2]; simpl in *; [done| |].
  - eexists. split; [reflexivity|]. by rewrite raise_slots, raise_globals.
  - eexists. split; [reflexivity|]. done.
Qed.

(** C10, what the code does instead.  A failure that comes before the test
    of the result never reaches it.  With a null out-pointer, evaluate on a
    source text the engine does not compile, and getProperty on a value the
    engine does not turn into an object, go on through the empty handle they
    were handed and run into undefined behaviour: neither returns, so no
    null result comes back.  Up to there no slot and no byte of the caller
    was written and no handle was made. *)
Theorem failure_with_null_out_pointer_never_returns (w : world K) (i : Z) :
  (forall c s ctx,
     globals w !! c = Some (OfContext ctx) ->
     compiles i s (heap w) = false ->
     exists w', evaluate i c s NULL w = Fault w' /\
                slots w' = slots w /\ bytes w' = bytes w /\ globals w' = globals w) /\
  (forall p k v,
     globals w !! p = Some (OfValue (Some v)) ->
     coercible v (heap w) = false ->
     exists w', getProperty i p k NULL w = Fault w' /\
                slots w' = slots w /\ bytes w' = bytes w /\ globals w' = globals w).
Proof.
  split.
  - intros c s ctx Hc Hs. unfold compiles in Hs. run. rewrite Hc. simpl.
    destruct (String_NewFromUtf8 E i s (heap w)) as [source h1]. simpl.
    destruct (Script_Compile E source h1) as [[p|e|] h2]; simpl in *; [done| |].
    + eexists. split; [reflexivity|].
      by rewrite raise_slots, raise_bytes, raise_globals.
    + eexists. split; [reflexivity|]. done.
  - intros p k v Hp Hv. unfold coercible in Hv. run. rewrite Hp. simpl.
    destruct (Value_ToObject E v (heap w)) as [[o|e|] h1]; simpl in *; [done| |].
    + destruct (String_NewFromUtf8 E i k h1) as [key h2]. simpl.
      eexists. split; [reflexivity|]. done.
    + destruct (String_NewFromUtf8 E i k h1) as [key h2]. simpl.
      eexists. split; [reflexivity|]. done.
Qed.

(** C4, as the code has it.  For every handle of a value the engine turns
    into an object, getProperty returns what the engine's lookup of the real
    named property gives: for a found value, a fresh handle of that value
    and no write to the exception slot, so that isUndefined of the result is
    true exactly when the engine found undefined; for a lookup that threw, a
    null result and, given a slot, a handle of the exception in it; for a
    lookup that came back empty without an exception (the key is not there),
    a null result and, given a slot, a handle that wraps no value. *)
Theorem getProperty_follows_the_lookup (w : world K) (i p : Z) (k : string) (x : Z)
    (v o key : value K) (h1 h2 h3 : engine_heap K)
    (found : completion (value K) (value K)) :
  globals w !! p = Some (OfValue (Some v)) ->
  Value_ToObject E v (heap w) = (Normal o, h1) ->
  String_NewFromUtf8 E i k h1 = (key, h2) ->
  Object_GetRealNamedProperty E o key h2 = (found, h3) ->
  exists r w', getProperty i p k x w = Ret r w' /\ heap w' = h3 /\
    match found with
    | Normal result =>
        r <> NULL /\ globals w !! r = None /\
        globals w' = <[r := OfValue (Some result)]> (globals w) /\
        slots w' = slots w /\
        exists w'', isUndefined i r w' = Ret (Value_IsUndefined E result) w''
    | Thrown e =>
        r = NULL /\
        if x =? NULL then slots w' = slots w /\ globals w' = globals w
        else exists q, q <> NULL /\ globals w !! q = None /\
               slots w' = store x q (slots w) /\
               globals w' = <[q := OfValue (Some e)]> (globals w)
    | Nothing =>
        r = NULL /\
        if x =? NULL then slots w' = slots w /\ globals w' = globals w
        else exists q, q <> NULL /\ globals w !! q = None /\
               slots w' = store x q (slots w) /\
               globals w' = <[q := OfValue None]> (globals w)
    end.
Proof.
  intros Hp Ho Hk Hf. run. rewrite Hp. simpl. rewrite Ho. simpl. rewrite Hk. simpl.
  rewrite Hf. simpl. pose proof (fresh_handle (globals w)) as [Hn Hu].
  destruct found as [result|e|]; simpl.
  - eexists _, _. split; [reflexivity|]. simpl. split; [done|].
    repeat split; try done.
    cbv [isUndefined type_check GlobalValue within bind enter leave ret call
         Global_Get_Value deref]. simpl. rewrite lookup_insert_eq. simpl.
    eexists. reflexivity.
  - destruct (x =? NULL); simpl.
    + eexists _, _. split; [reflexivity|]. simpl. done.
    + eexists _, _. split; [reflexivity|]. simpl.
      split; [done|]. split; [done|]. eexists. repeat split; done.
  - destruct (x =? NULL); simpl.
    + eexists _, _. split; [reflexivity|]. simpl. done.
    + eexists _, _. split; [reflexivity|]. simpl.
      split; [done|]. split; [done|]. eexists. repeat split; done.
Qed.

Lemma evaluate_success i c s x (w0 w : world K) h :
  evaluate i c s x w0 = Ret h w -> h <> NULL ->
  exists v, globals w !! h = Some (OfValue (Some v)).
Proof.
  run. intros Hev Hh. crush; try done.
  all: eexists; rewrite ?raise_globals; simpl; by rewrite lookup_insert_eq.
Qed.

End Outputs.

(** ** Strings *)

Lemma size_t_of_int_small n : 0 <= n < 2 ^ 31 -> size_t_of_int n = n.
Proof. intros. unfold size_t_of_int. apply Z.mod_small. lia. Qed.

Lemma memcpy_inside dest src n m j :
  0 <= j < n -> memcpy dest src n m (dest + j) = nth (Z.to_nat j) src x00.
Proof.
  intros Hj. unfold memcpy.
  destruct (dest <=? dest + j) eqn:H1, (dest + j <? dest + n) eqn:H2; simpl; try lia.
  f_equal. lia.
Qed.

Lemma memcpy_outside dest src n m a :
  ~ (dest <= a < dest + n) -> memcpy dest src n m a = m a.
Proof.
  intros Ha. unfold memcpy.
  destruct (dest <=? a) eqn:H1, (a <? dest + n) eqn:H2; simpl; auto; lia.
Qed.

Lemma read_bytes_memcpy dest (src : list byte) n m (k : nat) :
  Z.of_nat k <= n -> (k <= length src)%nat ->
  read_bytes (memcpy dest src n m) dest k = take k src.
Proof.
  intros Hk Hl. unfold read_bytes. apply list_eq. intros j.
  rewrite list_lookup_fmap, lookup_take.
  destruct (decide (j < k)%nat) as [Hj|Hj].
  - rewrite lookup_seq_lt by done. simpl. rewrite memcpy_inside by lia.
    rewrite Nat2Z.id. destruct (src !! j) eqn:Hs.
    + f_equal. by apply nth_lookup_Some with (d := x00) in Hs.
    + apply lookup_ge_None in Hs. lia.
  - rewrite lookup_seq_ge by lia. done.
Qed.

Ltac scoped :=
  cbv [getUtf8StringLength copyUtf8String GlobalValue within bind enter leave ret fault
       deref call Global_Get_Value]; simpl.

Section Strings.
Context {K : Carriers} {E : Engine K}.

(** C8, as the code has it.  For every handle of a value that converts to
    UTF-8 bytes [S] and every byteCount from 0 up to the length of [S] plus
    one (the bytes and their terminator), copyUtf8String returns having
    written exactly the first byteCount bytes of [S] followed by NUL into
    the buffer, and nothing at or beyond byteCount; a count up to the length
    of [S] therefore copies a prefix of [S] and no NUL. *)
Theorem copyUtf8String_writes_count_bytes (w : world K) (i p buffer count : Z)
    (v : value K) (S : list byte) (h1 : engine_heap K) :
  globals w !! p = Some (OfValue (Some v)) ->
  Utf8Value E (Some v) (heap w) = (Some S, h1) ->
  0 <= count <= Z.of_nat (length S) + 1 ->
  count < 2 ^ 31 ->
  exists w', copyUtf8String i p buffer count w = Ret tt w' /\
    read_bytes (bytes w') buffer (Z.to_nat count) = take (Z.to_nat count) (S ++ [x00]) /\
    (forall a, ~ (buffer <= a < buffer + count) -> bytes w' a = bytes w a) /\
    slots w' = slots w.
Proof.
  intros Hp Hu Hc Hi. scoped. rewrite Hp. simpl. rewrite Hu. simpl.
  rewrite size_t_of_int_small by lia.
  destruct (count <=? Z.of_nat (length S) + 1) eqn:Hle; [|lia]. simpl.
  eexists. split; [reflexivity|]. simpl. split; [|split; [|done]].
  - apply read_bytes_memcpy; [lia|]. rewrite length_app. simpl. lia.
  - intros a Ha. by apply memcpy_outside.
Qed.

(** C7.  For every string [S] that a script evaluates to, given as the UTF-8
    bytes the engine converts the evaluated value to: getUtf8StringLength on
    the handle evaluate returned gives the length of [S], and copyUtf8String
    with that count leaves exactly the bytes of [S] in the buffer and writes
    nothing outside it. *)
Theorem utf8_length_then_copy (w0 w : world K) (i c : Z) (source : string)
    (x h buffer : Z) (S : list byte) :
  evaluate i c source x w0 = Ret h w -> h <> NULL ->
  (forall v, globals w !! h = Some (OfValue (Some v)) -> utf8_of v S) ->
  Z.of_nat (length S) < 2 ^ 31 ->
  exists w1 w2,
    getUtf8StringLength i h w = Ret (Z.of_nat (length S)) w1 /\
    copyUtf8String i h buffer (Z.of_nat (length S)) w1 = Ret tt w2 /\
    read_bytes (bytes w2) buffer (length S) = S /\
    (forall a, ~ (buffer <= a < buffer + Z.of_nat (length S)) -> bytes w2 a = bytes w a).
Proof.
  intros Hev Hh Hs Hlen. destruct (evaluate_success _ _ _ _ _ _ _ Hev Hh) as [v Hv].
  specialize (Hs v Hv). unfold utf8_of in Hs.
  eexists _, _. split; [|split].
  - scoped. rewrite Hv. simpl. rewrite Hs. simpl. reflexivity.
  - scoped. rewrite Hv. simpl. rewrite Hs. simpl.
    rewrite size_t_of_int_small by lia.
    destruct (Z.of_nat (length S) <=? Z.of_nat (length S) + 1) eqn:Hle; [|lia].
    reflexivity.
  - simpl. split.
    + rewrite read_bytes_memcpy; [|lia|rewrite length_app; lia].
      by rewrite take_app_length.
    + intros a Ha. by apply memcpy_outside.
Qed.

End Strings.

(** ** Host functions *)

Section Functions.
Context {K : Carriers} {E : Engine K}.
Variable swiftCallback : Z -> Z -> list Z -> Z -> Z -> M K unit.

(** What [new Global<Value>] of a non-empty local does. *)
Lemma new_Global_value (a : value K) (w : world K) :
  exists p w1, new_Global (OfValue (Some a)) w = Ret p w1 /\
    p <> NULL /\ globals w !! p = None /\
    globals w1 = <[p := OfValue (Some a)]> (globals w) /\
    trace w1 = trace w ++ [Call N_GlobalizeReference] /\
    heap w1 = heap w /\ bytes w1 = bytes w /\ slots w1 = slots w /\
    returns w1 = returns w /\ handlers w1 = handlers w.
Proof.
  eexists _, _. split; [reflexivity|]. simpl.
  pose proof (fresh_handle (globals w)) as [? ?]. repeat split; done.
Qed.

(** The loop over the call arguments, by induction on them. *)
Lemma promote_spec isolate (args : list (value K)) :
  forall w : world K, exists values w1,
    promote isolate args w = Ret values w1 /\
    length values = length args /\
    NoDup values /\
    (forall p, p ∈ values -> p <> NULL /\ globals w !! p = None) /\
    (forall j p, values !! j = Some p ->
       exists a, args !! j = Some a /\ globals w1 !! p = Some (OfValue (Some a))) /\
    (forall p cell, globals w !! p = Some cell -> globals w1 !! p = Some cell) /\
    trace w1 = trace w ++ repeat (Call N_GlobalizeReference) (length args) /\
    heap w1 = heap w /\ bytes w1 = bytes w /\ slots w1 = slots w /\
    returns w1 = returns w /\ handlers w1 = handlers w.
Proof.
  induction args as [|a rest IH]; intros w.
  - exists [], w. simpl. rewrite app_nil_r.
    split; [done|]. split; [done|]. split; [constructor|].
    split; [intros p Hp; by apply elem_of_nil in Hp|].
    split; [intros j p Hp; done|]. done.
  - destruct (new_Global_value a w)
      as (p & wa & Hnew & Hp & Hfree & Hg & Ht & Hh & Hb & Hs & Hr & Hc).
    destruct (IH wa)
      as (ps & w1 & Hrest & Hlen & Hnd & Hfresh & Hat & Hkeep & Ht1 & Hh1 & Hb1 & Hs1
          & Hr1 & Hc1).
    exists (p :: ps), w1. simpl. unfold bind at 1. rewrite Hnew.
    unfold bind at 1. rewrite Hrest. unfold ret.
    assert (globals wa !! p = Some (OfValue (Some a))) as Hpa
      by (rewrite Hg; apply lookup_insert_eq).
    split; [done|]. split; [simpl; lia|]. split; [|split; [|split; [|split]]].
    + constructor; [|done]. intros Hin. apply Hfresh in Hin as [_ Hnone]. congruence.
    + intros q Hq. apply elem_of_cons in Hq as [->|Hq]; [done|].
      apply Hfresh in Hq as [Hq1 Hq2]. split; [done|].
      rewrite Hg in Hq2. destruct (decide (p = q)) as [->|Hne].
      * by rewrite lookup_insert_eq in Hq2.
      * by rewrite lookup_insert_ne in Hq2.
    + intros [|j] q Hq; simpl in *.
      * simplify_eq. exists a. split; [done|]. by apply Hkeep.
      * by apply Hat.
    + intros q cell Hq. apply Hkeep. rewrite Hg.
      destruct (decide (p = q)) as [->|Hne]; [congruence|]. by rewrite lookup_insert_ne.
    + rewrite Ht1, Ht, <- app_assoc. simpl. repeat split; congruence.
Qed.

(** What [callback] does with a call whose data is the integer made from
    [callId]: one dispatch, with fresh handles of the arguments in their
    order. *)
Lemma callback_on_integer_data (w : world K) (info : FunctionCallbackInfo)
    (isolate callId : Z) (h0 h0' : engine_heap K) :
  int32_roundtrip (E:=E) ->
  - 2 ^ 31 <= callId < 2 ^ 31 ->
  Integer_New E isolate callId h0 = (Data info, h0') ->
  GetIsolate info = isolate ->
  let count := Z.of_nat (length (arguments info)) in
  exists values w1,
    callback swiftCallback info w =
      (do r <- swiftCallback isolate callId values count (GetReturnValue info) ;
       leave HandleScope isolate ;; ret r) w1 /\
    trace w1 = trace w ++ [Call N_Int32Value; Enter HandleScope isolate]
                 ++ repeat (Call N_GlobalizeReference) (length (arguments info))
                 ++ [Dispatch isolate callId values count (GetReturnValue info)] /\
    length values = length (arguments info) /\
    NoDup values /\
    (forall p, p ∈ values -> p <> NULL /\ globals w !! p = None) /\
    (forall j p, values !! j = Some p ->
       exists a, arguments info !! j = Some a /\
                 globals w1 !! p = Some (OfValue (Some a))) /\
    (forall p cell, globals w !! p = Some cell -> globals w1 !! p = Some cell) /\
    heap w1 = heap w /\ bytes w1 = bytes w /\ slots w1 = slots w /\
    returns w1 = returns w.
Proof.
  intros Hround HK Hdata Hiso count.
  pose proof (Hround isolate callId h0 (Data info) h0' HK Hdata (heap w)) as Hid.
  unfold callback. unfold bind at 1. unfold call. rewrite Hid. rewrite Hiso.
  unfold within. unfold bind at 1. unfold enter. unfold bind at 1.
  set (w0 := log (Enter HandleScope isolate) _).
  destruct (promote_spec isolate (arguments info) w0)
    as (values & w1 & Hpro & Hlen & Hnd & Hfresh & Hat & Hkeep & Ht & Hh & Hb & Hs
        & Hr & Hc).
  exists values, (log (Dispatch isolate callId values count (GetReturnValue info)) w1).
  split; [|split; [|split; [|split; [|split; [|split; [|split]]]]]].
  - unfold bind at 1. rewrite Hpro. unfold bind at 1. unfold emit. reflexivity.
  - simpl. rewrite Ht. subst w0. simpl. by rewrite <- !app_assoc.
  - done.
  - done.
  - intros p Hp. apply Hfresh in Hp. by subst w0.
  - done.
  - intros p cell Hp. simpl. apply Hkeep. by subst w0.
  - simpl. subst w0. simpl in *. repeat split; congruence.
Qed.

(** C5.  createFunction registers, and callback dispatches what was
    registered.  Given live template and context handles, createFunction
    for the identifier [id] returns after it had the engine make an integer
    from [id], make a function slot with that integer as its data, and
    install that slot in the template under the given name; the context is
    rebound on the template afterwards.  A script call of the function
    reaches [callback] with the data of its slot, the registering isolate,
    and the n call arguments.  For every such call the bridge calls the
    external dispatch function exactly once, with that isolate, [id], n
    handles, the count n and the return value sink of this call.  The
    handles are fresh, non-null and pairwise distinct, and the j-th one
    wraps the j-th argument (none when n is zero).  No cell that existed is
    changed or freed, and what the dispatch function leaves is what the
    callback leaves, the handle scope being closed afterwards. *)
Theorem registered_call_dispatches_once (w : world K) (i c t : Z) (name : string)
    (id : Z) (tmpl : object_template K) (old : context K) :
  int32_roundtrip (E:=E) ->
  - 2 ^ 31 <= id < 2 ^ 31 ->
  globals w !! t = Some (OfTemplate tmpl) ->
  globals w !! c = Some (OfContext old) ->
  exists (data key : value K) (slot : function_template K) (h1 h2 h3 : engine_heap K)
         (w' : world K),
    createFunction i c t name id w = Ret tt w' /\
    Integer_New E i id (heap w) = (data, h1) /\
    String_NewFromUtf8 E i name h1 = (key, h2) /\
    FunctionTemplate_New E i data h2 = (slot, h3) /\
    heap w' =
      (let '(_, h4) := Template_Set E tmpl key slot h3 in
       let '(global_, h5) := Context_Global E old h4 in
       let '(_, h6) := Context_DetachGlobal E old h5 in
       Context_New E i tmpl (Some global_) h6).2 /\
    forall (info : FunctionCallbackInfo) (w0 : world K),
      Data info = data -> GetIsolate info = i ->
      exists values w1,
        callback swiftCallback info w0 =
          (do r <- swiftCallback i id values (Z.of_nat (length (arguments info)))
                     (GetReturnValue info) ;
           leave HandleScope i ;; ret r) w1 /\
        trace w1 = trace w0 ++ [Call N_Int32Value; Enter HandleScope i]
                     ++ repeat (Call N_GlobalizeReference) (length (arguments info))
                     ++ [Dispatch i id values (Z.of_nat (length (arguments info)))
                           (GetReturnValue info)] /\
        length values = length (arguments info) /\
        NoDup values /\
        (forall p, p ∈ values -> p <> NULL /\ globals w0 !! p = None) /\
        (forall j p, values !! j = Some p ->
           exists a, arguments info !! j = Some a /\
                     globals w1 !! p = Some (OfValue (Some a))) /\
        (forall p cell, globals w0 !! p = Some cell -> globals w1 !! p = Some cell) /\
        heap w1 = heap w0 /\ bytes w1 = bytes w0 /\ slots w1 = slots w0 /\
        returns w1 = returns w0.
Proof.
  intros Hround Hid Ht Hc.
  cbv [createFunction within bind enter leave ret call Global_Get_Template
       Global_Get_Context Global_Reset_Context]; simpl.
  destruct (Integer_New E i id (heap w)) as [data h1] eqn:Hdata. simpl. rewrite Ht. simpl.
  destruct (String_NewFromUtf8 E i name h1) as [key h2] eqn:Hkey. simpl.
  destruct (FunctionTemplate_New E i data h2) as [slot h3] eqn:Hslot. simpl.
  exists data, key, slot, h1, h2, h3.
  destruct (Template_Set E tmpl key slot h3) as [[] h4]. simpl. rewrite Hc. simpl.
  destruct (Context_Global E old h4) as [global_ h5]. simpl.
  destruct (Context_DetachGlobal E old h5) as [[] h6]. simpl.
  destruct (Context_New E i tmpl (Some global_) h6) as [new h7]. simpl. rewrite Hc.
  eexists. split; [reflexivity|]. simpl.
  split; [done|]. split; [exact Hkey|]. split; [exact Hslot|]. split; [done|].
  intros info w0 Hinfo Hiso. subst data.
  exact (callback_on_integer_data w0 info i id (heap w) h1 Hround Hid Hdata Hiso).
Qed.


End Functions.

(** ** The bridge on the miniature engine *)

Lemma returned_Ret {K A} (o : outcome K A) (a : A) :
  returned o = Some a -> o = Ret a (final o).
Proof. destruct o; simpl; congruence. Qed.

Lemma events_of_unique {K A} (m : M K A) (w : world K) evs :
  trace (final (m w)) = trace w ++ evs -> events_of m w = evs.
Proof. unfold events_of. intros ->. apply drop_app_length. Qed.

(** C1 fails for the dispose operations: disposing the value handle of
    [Mini.with_number] returns after one engine call, the release of the
    persistent reference, made with no lock taken and no scope open. *)
Lemma dispose_without_guard :
  returned (perform (Op_disposeValue 3) Mini.with_number) = Some tt /\
  events_of (perform (Op_disposeValue 3)) Mini.with_number = [Call N_DisposeGlobal] /\
  discipline [] (events_of (perform (Op_disposeValue 3)) Mini.with_number) = None /\
  ~ keeps (K:=Mini.carriers) [] (perform (Op_disposeValue 3)).
Proof.
  assert (events_of (perform (Op_disposeValue 3)) Mini.with_number
          = [Call N_DisposeGlobal]) as Hev by (vm_compute; reflexivity).
  assert (returned (perform (Op_disposeValue 3) Mini.with_number) = Some tt) as Hr
    by (vm_compute; reflexivity).
  split; [done|]. split; [done|]. split; [by rewrite Hev|].
  intros Hk. destruct (Hk Mini.with_number) as (evs & Ht & Hd).
  rewrite (returned_Ret _ _ Hr) in Hd.
  rewrite <- (events_of_unique _ _ _ Ht), Hev in Hd. discriminate Hd.
Qed.



(** [evaluate_faults_on_compile_failure] at the source text "{". *)
Lemma compile_failure_witness :
  globals Mini.ready !! 2
    = Some (OfContext (K:=Mini.carriers) (Mini.Build_jscontext 0)) /\
  compiles Mini.isolate "{" (heap Mini.ready) = false /\
  exists w', evaluate Mini.isolate 2 "{" Mini.exception_slot Mini.ready = Fault w' /\
             slots w' = slots Mini.ready /\ globals w' = globals Mini.ready.
Proof.
  assert (globals Mini.ready !! 2
          = Some (OfContext (K:=Mini.carriers) (Mini.Build_jscontext 0))) as Hc
    by (vm_compute; reflexivity).
  assert (compiles Mini.isolate "{" (heap Mini.ready) = false) as Hs
    by (vm_compute; reflexivity).
  split; [exact Hc|]. split; [exact Hs|].
  pose proof (evaluate_faults_on_compile_failure Mini.ready Mini.isolate 2 "{"
                Mini.exception_slot (Mini.Build_jscontext 0) Hc Hs) as H.
  exact H.
Defined.

(** C4 fails for a key that was never set: the object behind handle 3 of
    [Mini.with_object] has no property at all, and getProperty for "missing"
    returns no result handle, but null, and puts into the exception slot a
    handle that wraps nothing. *)
Lemma absent_key_yields_exception_handle :
  globals Mini.with_object !! 3
    = Some (OfValue (K:=Mini.carriers) (Some (Mini.JObject 1))) /\
  Mini.objects (heap Mini.with_object) !! 1%nat = Some [] /\
  returned (getProperty Mini.isolate 3 "missing" Mini.exception_slot Mini.with_object)
    = Some NULL /\
  slots (final (getProperty Mini.isolate 3 "missing" Mini.exception_slot
                  Mini.with_object)) Mini.exception_slot = 4 /\
  globals (final (getProperty Mini.isolate 3 "missing" Mini.exception_slot
                    Mini.with_object)) !! 4 = Some (OfValue (K:=Mini.carriers) None).
Proof. repeat split; vm_compute; reflexivity. Qed.

(** [failure_with_null_out_pointer_never_returns] at the source text "{" and
    at a lookup on the null value, both with a null out-pointer. *)
Lemma null_out_pointer_witness :
  globals Mini.ready !! 2
    = Some (OfContext (K:=Mini.carriers) (Mini.Build_jscontext 0)) /\
  compiles Mini.isolate "{" (heap Mini.ready) = false /\
  returned (evaluate Mini.isolate 2 "{" NULL Mini.ready) = None /\
  globals Mini.with_null !! 3 = Some (OfValue (K:=Mini.carriers) (Some Mini.JNull)) /\
  coercible (E:=Mini.engine) Mini.JNull (heap Mini.with_null) = false /\
  returned (getProperty Mini.isolate 3 "x" NULL Mini.with_null) = None.
Proof.
  assert (globals Mini.ready !! 2
          = Some (OfContext (K:=Mini.carriers) (Mini.Build_jscontext 0))) as Hc
    by (vm_compute; reflexivity).
  assert (compiles Mini.isolate "{" (heap Mini.ready) = false) as Hs
    by (vm_compute; reflexivity).
  assert (globals Mini.with_null !! 3
          = Some (OfValue (K:=Mini.carriers) (Some Mini.JNull))) as Hp
    by (vm_compute; reflexivity).
  assert (coercible (E:=Mini.engine) Mini.JNull (heap Mini.with_null) = false) as Hv
    by (vm_compute; reflexivity).
  destruct (failure_with_null_out_pointer_never_returns Mini.ready Mini.isolate)
    as [He _].
  destruct (He 2 "{"%string _ Hc Hs) as (w1 & Hf1 & _).
  destruct (failure_with_null_out_pointer_never_returns Mini.with_null Mini.isolate)
    as [_ Hg].
  destruct (Hg 3 "x"%string _ Hp Hv) as (w2 & Hf2 & _).
  split; [exact Hc|]. split; [exact Hs|]. split; [by rewrite Hf1|].
  split; [exact Hp|]. split; [exact Hv|]. by rewrite Hf2.
Defined.

(** [getProperty_follows_the_lookup] at a property whose getter throws. *)
Lemma getProperty_witness :
  globals Mini.with_getter !! 3
    = Some (OfValue (K:=Mini.carriers) (Some (Mini.JObject 1))) /\
  Object_GetRealNamedProperty Mini.engine (Mini.JObject 1) (Mini.JString "boom")
      (heap Mini.with_getter)
    = (Thrown (Mini.JInteger 1), heap Mini.with_getter) /\
  exists r w',
    getProperty Mini.isolate 3 "boom" Mini.exception_slot Mini.with_getter = Ret r w' /\
    r = NULL /\
    exists q, q <> NULL /\
      slots w' = store Mini.exception_slot q (slots Mini.with_getter) /\
      globals w' = <[q := OfValue (K:=Mini.carriers) (Some (Mini.JInteger 1))]>
                     (globals Mini.with_getter).
Proof.
  assert (globals Mini.with_getter !! 3
          = Some (OfValue (K:=Mini.carriers) (Some (Mini.JObject 1)))) as Hp
    by (vm_compute; reflexivity).
  assert (Value_ToObject Mini.engine (Mini.JObject 1) (heap Mini.with_getter)
          = (Normal (Mini.JObject 1), heap Mini.with_getter)) as Ho
    by (vm_compute; reflexivity).
  assert (String_NewFromUtf8 Mini.engine Mini.isolate "boom" (heap Mini.with_getter)
          = (Mini.JString "boom", heap Mini.with_getter)) as Hk
    by (vm_compute; reflexivity).
  assert (Object_GetRealNamedProperty Mini.engine (Mini.JObject 1) (Mini.JString "boom")
            (heap Mini.with_getter)
          = (Thrown (Mini.JInteger 1), heap Mini.with_getter)) as Hf
    by (vm_compute; reflexivity).
  split; [exact Hp|]. split; [exact Hf|].
  destruct (getProperty_follows_the_lookup Mini.with_getter Mini.isolate 3 "boom"
              Mini.exception_slot _ _ _ _ _ _ _ Hp Ho Hk Hf)
    as (r & w' & Hg & _ & Hr & q & Hq & _ & Hs & Hc).
  exists r, w'. split; [exact Hg|]. split; [exact Hr|].
  exists q. split; [exact Hq|]. split; [exact Hs|exact Hc].
Defined.

Lemma mini_int32_roundtrip : int32_roundtrip (E:=Mini.engine).
Proof.
  intros i k h d h' Hk Hd h''. injection Hd as <- _. cbn.
  unfold Mini.mini_Int32Value, Mini.wrap32. f_equal. rewrite Z.mod_small; lia.
Defined.

(** [registered_call_dispatches_once] at the registration of "f" with
    identifier 7 in [Mini.ready], and at the call [Mini.a_call] made in the
    world the registration left. *)
Lemma registered_call_witness :
  int32_roundtrip (E:=Mini.engine) /\ - 2 ^ 31 <= 7 < 2 ^ 31 /\
  globals Mini.ready !! 1 = Some (OfTemplate (K:=Mini.carriers) 0%nat) /\
  globals Mini.ready !! 2
    = Some (OfContext (K:=Mini.carriers) (Mini.Build_jscontext 0)) /\
  exists data w',
    createFunction Mini.isolate 2 1 "f" 7 Mini.ready = Ret tt w' /\
    Data Mini.a_call = data /\
    GetIsolate Mini.a_call = Mini.isolate /\
    exists values w1,
      callback Mini.swiftCallback Mini.a_call w' =
        (do r <- Mini.swiftCallback Mini.isolate 7 values
                   (Z.of_nat (length (arguments Mini.a_call)))
                   (GetReturnValue Mini.a_call) ;
         leave HandleScope Mini.isolate ;; ret r) w1 /\
      length values = length (arguments Mini.a_call) /\
      NoDup values /\
      (forall j p, values !! j = Some p ->
         exists a, arguments Mini.a_call !! j = Some a /\
                   globals w1 !! p = Some (OfValue (K:=Mini.carriers) (Some a))).
Proof.
  assert (- 2 ^ 31 <= 7 < 2 ^ 31) as HK by lia.
  assert (globals Mini.ready !! 1 = Some (OfTemplate (K:=Mini.carriers) 0%nat)) as Ht
    by (vm_compute; reflexivity).
  assert (globals Mini.ready !! 2
          = Some (OfContext (K:=Mini.carriers) (Mini.Build_jscontext 0))) as Hc
    by (vm_compute; reflexivity).
  assert (Integer_New Mini.engine Mini.isolate 7 (heap Mini.ready)
          = (Data Mini.a_call, heap Mini.ready)) as Hd by (vm_compute; reflexivity).
  assert (GetIsolate Mini.a_call = Mini.isolate) as Hi by (vm_compute; reflexivity).
  split; [exact mini_int32_roundtrip|]. split; [exact HK|]. split; [exact Ht|].
  split; [exact Hc|].
  destruct (registered_call_dispatches_once Mini.swiftCallback Mini.ready Mini.isolate
              2 1 "f" 7 _ _ mini_int32_roundtrip HK Ht Hc)
    as (data & key & slot & h1 & h2 & h3 & w' & Hcf & Hdata & _ & _ & _ & Hcall).
  assert (Data Mini.a_call = data) as Hinfo by congruence.
  destruct (Hcall Mini.a_call w' Hinfo Hi)
    as (values & w1 & Hcb & _ & Hl & Hn & _ & Hat & _).
  exists data, w'. split; [exact Hcf|]. split; [exact Hinfo|]. split; [exact Hi|].
  exists values, w1. split; [exact Hcb|]. split; [exact Hl|]. split; [exact Hn|exact Hat].
Defined.

(** The same call, run: one dispatch, with the handles 3 and 4 of the
    arguments 1 and "x" in their order; the host's answer is in the sink. *)
Lemma callback_runs :
  returned (callback Mini.swiftCallback Mini.a_call Mini.ready) = Some tt /\
  events_of (callback Mini.swiftCallback Mini.a_call) Mini.ready
    = [Call N_Int32Value; Enter HandleScope Mini.isolate; Call N_GlobalizeReference;
       Call N_GlobalizeReference; Dispatch Mini.isolate 7 [3; 4] 2 900;
       Call N_String_NewFromUtf8; Call N_ReturnValue_Set;
       Leave HandleScope Mini.isolate] /\
  globals (final (callback Mini.swiftCallback Mini.a_call Mini.ready)) !! 3
    = Some (OfValue (K:=Mini.carriers) (Some (Mini.JInteger 1))) /\
  globals (final (callback Mini.swiftCallback Mini.a_call Mini.ready)) !! 4
    = Some (OfValue (K:=Mini.carriers) (Some (Mini.JString "x"))) /\
  returns (final (callback Mini.swiftCallback Mini.a_call Mini.ready)) !! 900
    = Some (SetString (K:=Mini.carriers) (Mini.JString "ok")).
Proof. repeat split; vm_compute; reflexivity. Qed.


(** Functions registered earlier are slots of the template and come back
    with every rebinding. *)
Lemma functions_survive_rebinding :
  returned (evaluate Mini.isolate 2 "f" Mini.exception_slot Mini.registered_twice)
    = Some 3 /\
  globals (final (evaluate Mini.isolate 2 "f" Mini.exception_slot Mini.registered_twice))
    !! 3 = Some (OfValue (K:=Mini.carriers) (Some (Mini.JFunction 7))).
Proof. repeat split; vm_compute; reflexivity. Qed.


(** C8 fails outside the converted bytes: the string behind handle 3 of
    [Mini.with_string] has two bytes; a copy of 5 bytes reads past its
    terminator, and a count of -1 becomes 2^64 - 1 bytes.  Neither call
    returns. *)
Lemma copy_out_of_range_faults :
  returned (getUtf8StringLength Mini.isolate 3 Mini.with_string) = Some 2 /\
  size_t_of_int (-1) = 2 ^ 64 - 1 /\
  returned (copyUtf8String Mini.isolate 3 100 5 Mini.with_string) = None /\
  returned (copyUtf8String Mini.isolate 3 100 (-1) Mini.with_string) = None.
Proof. repeat split; vm_compute; reflexivity. Qed.

(** [copyUtf8String_writes_count_bytes] at a truncated copy of one byte. *)
Lemma copy_witness :
  globals Mini.with_string !! 3
    = Some (OfValue (K:=Mini.carriers) (Some (Mini.JString "ab"))) /\
  Utf8Value Mini.engine (Some (Mini.JString "ab")) (heap Mini.with_string)
    = (Some [x61; x62], heap Mini.with_string) /\
  0 <= 1 <= Z.of_nat (length [x61; x62]) + 1 /\
  1 < 2 ^ 31 /\
  exists w', copyUtf8String Mini.isolate 3 100 1 Mini.with_string = Ret tt w' /\
    read_bytes (bytes w') 100 (Z.to_nat 1) = take (Z.to_nat 1) ([x61; x62] ++ [x00]) /\
    (forall a, ~ (100 <= a < 100 + 1) -> bytes w' a = bytes Mini.with_string a) /\
    slots w' = slots Mini.with_string.
Proof.
  assert (globals Mini.with_string !! 3
          = Some (OfValue (K:=Mini.carriers) (Some (Mini.JString "ab")))) as Hp
    by (vm_compute; reflexivity).
  assert (Utf8Value Mini.engine (Some (Mini.JString "ab")) (heap Mini.with_string)
          = (Some [x61; x62], heap Mini.with_string)) as Hu by (vm_compute; reflexivity).
  assert (0 <= 1 <= Z.of_nat (length [x61; x62]) + 1) as Hc by (simpl; lia).
  assert (1 < 2 ^ 31) as Hi by lia.
  split; [exact Hp|]. split; [exact Hu|]. split; [exact Hc|]. split; [exact Hi|].
  exact (copyUtf8String_writes_count_bytes Mini.with_string Mini.isolate 3 100 1 _ _ _
           Hp Hu Hc Hi).
Defined.

(** [utf8_length_then_copy] at the script "'ab'". *)
Lemma roundtrip_witness :
  evaluate Mini.isolate 2 "'ab'" NULL Mini.ready = Ret 3 Mini.with_string /\
  3 <> NULL /\
  (forall v, globals Mini.with_string !! 3 = Some (OfValue (Some v)) ->
             utf8_of (E:=Mini.engine) v [x61; x62]) /\
  exists w1 w2,
    getUtf8StringLength Mini.isolate 3 Mini.with_string
      = Ret (Z.of_nat (length [x61; x62])) w1 /\
    copyUtf8String Mini.isolate 3 100 (Z.of_nat (length [x61; x62])) w1 = Ret tt w2 /\
    read_bytes (bytes w2) 100 (length [x61; x62]) = [x61; x62] /\
    (forall a, ~ (100 <= a < 100 + Z.of_nat (length [x61; x62])) ->
               bytes w2 a = bytes Mini.with_string a).
Proof.
  assert (evaluate Mini.isolate 2 "'ab'" NULL Mini.ready = Ret 3 Mini.with_string) as He
    by (vm_compute; reflexivity).
  assert (3 <> NULL) as Hh by discriminate.
  assert (forall v, globals Mini.with_string !! 3 = Some (OfValue (Some v)) ->
                    utf8_of (E:=Mini.engine) v [x61; x62]) as Hs.
  { intros v Hv. vm_compute in Hv. injection Hv as <-. intros h.
    vm_compute. reflexivity. }
  assert (Z.of_nat (length [x61; x62]) < 2 ^ 31) as Hl by (simpl; lia).
  split; [exact He|]. split; [exact Hh|]. split; [exact Hs|].
  exact (utf8_length_then_copy Mini.ready Mini.with_string Mini.isolate 2 "'ab'" NULL 3
           100 [x61; x62] He Hh Hs Hl).
Defined.

(** ** Further properties of the bridge *)

Ltac straight :=
  cbv [createTemplate createContext valueToInt getUtf8StringLength copyUtf8String
       type_check isNull isUndefined isBoolean isNumber isString isObject
       disposeValue disposeTemplate disposeContext delete_Global createFunction
       GlobalValue within bind enter leave ret fault deref call attempt emit
       new_Global Global_Get_Value Global_Get_Template Global_Get_Context
       Global_Reset_Context is_empty is_value is_template is_context]; simpl.

Section Evaluation.
Context {K : Carriers} {E : Engine K}.

Lemma raise_handlers_tail (e : value K) (w : world K) :
  tail (handlers (raise e w)) = tail (handlers w).
Proof. unfold raise. destruct (handlers w) eqn:Hh; simpl; rewrite ?Hh; done. Qed.

(** X2.  The try-catch of evaluate and getProperty never outlives the call:
    when either returns, the stack of exception handlers is what it was
    before, whatever was thrown and caught in between; when either stops in
    undefined behaviour, the stack is the old one with at most that one
    handler on top. *)
Theorem try_catch_is_removed :
  (forall i c s x (w : world K),
     match evaluate i c s x w with
     | Ret _ w' => handlers w' = handlers w
     | Fault w' => tail (handlers w') = handlers w
     end) /\
  (forall i v k x (w : world K),
     match getProperty i v k x w with
     | Ret _ w' => handlers w' = handlers w
     | Fault w' => tail (handlers w') = handlers w
     end).
Proof.
  split.
  - intros i c s x w. run. crush; rewrite ?raise_handlers_tail; try done.
    all: simpl in *; simplify_eq; done.
  - intros i v k x w. run. crush; rewrite ?raise_handlers_tail; try done.
    all: simpl in *; simplify_eq; done.
Qed.

(** X3.  createTemplate always returns: a non-null handle that was not in
    use, now the cell of the template the engine made, every other cell,
    the handlers, the return value sinks and the caller's memory being as
    before. *)
Theorem createTemplate_makes_a_fresh_handle (w : world K) (i : Z) :
  exists r w',
    createTemplate i w = Ret r w' /\
    r <> NULL /\ globals w !! r = None /\
    globals w' = <[r := OfTemplate (ObjectTemplate_New E i (heap w)).1]> (globals w) /\
    heap w' = (ObjectTemplate_New E i (heap w)).2 /\
    handlers w' = handlers w /\ same_caller_state w w'.
Proof.
  straight. destruct (ObjectTemplate_New E i (heap w)) as [t h]. simpl.
  pose proof (fresh_handle (globals w)) as [Hn Hu].
  eexists _, _. split; [reflexivity|]. simpl. repeat split; done.
Qed.

(** X4.  createContext returns exactly when its template handle is live
    and is one of a template.  Then the result is a fresh non-null handle,
    different from the template's, holding the context the engine made on
    that template without a global object to reuse.  On a handle that is
    dangling, or that belongs to a value or a context, the call has no
    defined result and has, up to then, changed nothing but the trace. *)
Theorem createContext_needs_a_live_template (w : world K) (i t : Z) :
  match globals w !! t with
  | Some (OfTemplate tmpl) =>
      exists r w',
        createContext i t w = Ret r w' /\
        r <> NULL /\ r <> t /\ globals w !! r = None /\
        globals w' = <[r := OfContext (Context_New E i tmpl None (heap w)).1]> (globals w) /\
        heap w' = (Context_New E i tmpl None (heap w)).2 /\
        handlers w' = handlers w /\ same_caller_state w w'
  | _ =>
      exists w', createContext i t w = Fault w' /\ only_traced w w'
  end.
Proof.
  straight. destruct (globals w !! t) as [[v|tmpl|c]|] eqn:Ht; simpl.
  - eexists. split; [reflexivity|]. repeat split; done.
  - destruct (Context_New E i tmpl None (heap w)) as [ctx h]. simpl.
    pose proof (fresh_handle (globals w)) as [Hn Hu].
    eexists _, _. split; [reflexivity|]. simpl. repeat split; try done.
    intros Heq. rewrite Heq in Hu. congruence.
  - eexists. split; [reflexivity|]. repeat split; done.
  - eexists. split; [reflexivity|]. repeat split; done.
Qed.

End Evaluation.

Section Handles.
Context {K : Carriers} {E : Engine K}.

(** X5.  Disposing a live non-null handle with the dispose function of its
    kind returns and frees that cell and no other: the handle is dangling
    afterwards, every other handle maps to what it did, and engine heap,
    handlers, return value sinks and caller memory are unchanged. *)
Theorem dispose_frees_exactly_one_cell (w : world K) (p : Z) (c : persistent K) :
  p <> NULL -> globals w !! p = Some c ->
  exists w',
    match c with
    | OfValue _ => disposeValue p w
    | OfTemplate _ => disposeTemplate p w
    | OfContext _ => disposeContext p w
    end = Ret tt w' /\
    globals w' !! p = None /\
    (forall q, q <> p -> globals w' !! q = globals w !! q) /\
    heap w' = heap w /\ handlers w' = handlers w /\ same_caller_state w w'.
Proof.
  intros Hp Hc. assert ((p =? NULL) = false) as Hpb by lia.
  destruct c as [l|t|ctx]; straight; rewrite Hpb, Hc; simpl.
  - destruct l; simpl; eexists; (split; [reflexivity|]); simpl;
      (split; [apply lookup_delete_eq|]);
      (split; [intros q Hq; by apply lookup_delete_ne|]); repeat split; done.
  - eexists; (split; [reflexivity|]); simpl;
      (split; [apply lookup_delete_eq|]);
      (split; [intros q Hq; by apply lookup_delete_ne|]); repeat split; done.
  - eexists; (split; [reflexivity|]); simpl;
      (split; [apply lookup_delete_eq|]);
      (split; [intros q Hq; by apply lookup_delete_ne|]); repeat split; done.
Qed.

(** X6.  No function of the bridge has a defined result on a dangling
    non-null handle: the type tests, valueToInt, getUtf8StringLength,
    copyUtf8String and getProperty on it as a value, evaluate and
    createFunction on it as a context, createContext and createFunction on
    it as a template, and each dispose function on it, a second dispose
    included. *)
Theorem dangling_handle_is_undefined (w : world K) (p : Z) :
  p <> NULL -> globals w !! p = None ->
  (forall i,
     returned (isNull i p w) = None /\ returned (isUndefined i p w) = None /\
     returned (isBoolean i p w) = None /\ returned (isNumber i p w) = None /\
     returned (isString i p w) = None /\ returned (isObject i p w) = None /\
     returned (valueToInt i p w) = None /\
     returned (getUtf8StringLength i p w) = None) /\
  (forall i buffer count, returned (copyUtf8String i p buffer count w) = None) /\
  (forall i k x, returned (getProperty i p k x w) = None) /\
  (forall i s x, returned (evaluate i p s x w) = None) /\
  (forall i, returned (createContext i p w) = None) /\
  (forall i c name id, returned (createFunction i c p name id w) = None) /\
  (forall i t name id, returned (createFunction i p t name id w) = None) /\
  returned (disposeValue p w) = None /\
  returned (disposeTemplate p w) = None /\
  returned (disposeContext p w) = None.
Proof.
  intros Hp Hd. assert ((p =? NULL) = false) as Hpb by lia.
  repeat split; intros; try (run; rewrite Hd; reflexivity);
    try (straight; rewrite ?Hpb, ?Hd; reflexivity).
  - straight. destruct (Integer_New E i id (heap w)) as [d h]. simpl. by rewrite Hd.
  - straight. destruct (Integer_New E i id (heap w)) as [d h]. simpl.
    destruct (globals w !! t) as [[l|tmpl|ctx]|]; simpl; try done.
    destruct (String_NewFromUtf8 E i name h) as [n h2]. simpl.
    destruct (FunctionTemplate_New E i d h2) as [f h3]. simpl.
    destruct (Template_Set E tmpl n f h3) as [[] h4]. simpl. by rewrite Hd.
Qed.

(** X8.  A template or a context that is created and disposed right away
    leaves no cell behind, and a createContext that fails has made none:
    the cells, the return value sinks and the caller's memory are those
    from before. *)
Theorem created_handle_disposed_leaves_no_cell (w : world K) (i : Z) :
  (exists r w1 w2, createTemplate i w = Ret r w1 /\ disposeTemplate r w1 = Ret tt w2 /\
                   globals w2 = globals w /\ same_caller_state w w2) /\
  (forall t, match createContext i t w with
             | Ret r w1 =>
                 exists w2, disposeContext r w1 = Ret tt w2 /\
                            globals w2 = globals w /\ same_caller_state w w2
             | Fault w1 => globals w1 = globals w
             end).
Proof.
  pose proof (fresh_handle (globals w)) as [Hn Hu].
  assert ((fresh ({[NULL]} ∪ dom (globals w)) =? NULL) = false) as Hf by lia.
  split.
  - straight. destruct (ObjectTemplate_New E i (heap w)) as [t h]. simpl.
    eexists _, _, _. split; [reflexivity|]. simpl. rewrite Hf. simpl.
    rewrite lookup_insert_eq. simpl.
    split; [reflexivity|]. simpl. rewrite delete_insert_id by done. repeat split; done.
  - intros t. straight. destruct (globals w !! t) as [[l|tmpl|c]|]; simpl; try done.
    destruct (Context_New E i tmpl None (heap w)) as [ctx h]. simpl.
    rewrite Hf. simpl. rewrite lookup_insert_eq. simpl.
    eexists. split; [reflexivity|]. simpl. rewrite delete_insert_id by done.
    repeat split; done.
Qed.


End Handles.

Section Introspection.
Context {K : Carriers} {E : Engine K}.

Lemma type_check_reads n (test : value K -> bool) (w : world K) (i p : Z) (v : value K) :
  globals w !! p = Some (OfValue (Some v)) ->
  exists w', type_check n test i p w = Ret (test v) w' /\ only_traced w w'.
Proof.
  intros Hp. straight. rewrite Hp. simpl.
  eexists. split; [reflexivity|]. repeat split; done.
Qed.

(** X10.  On a live handle of a value, each of isNull, isUndefined,
    isBoolean, isNumber, isString and isObject returns the engine's verdict
    on the wrapped value and changes nothing but the trace: not the engine
    heap, not a cell, not the handlers, not the caller's state. *)
Theorem type_tests_only_read (w : world K) (i p : Z) (v : value K) :
  globals w !! p = Some (OfValue (Some v)) ->
  (exists w', isNull i p w = Ret (Value_IsNull E v) w' /\ only_traced w w') /\
  (exists w', isUndefined i p w = Ret (Value_IsUndefined E v) w' /\ only_traced w w') /\
  (exists w', isBoolean i p w = Ret (Value_IsBoolean E v) w' /\ only_traced w w') /\
  (exists w', isNumber i p w = Ret (Value_IsNumber E v) w' /\ only_traced w w') /\
  (exists w', isString i p w = Ret (Value_IsString E v) w' /\ only_traced w w') /\
  (exists w', isObject i p w = Ret (Value_IsObject E v) w' /\ only_traced w w').
Proof.
  intros Hp. repeat split; by apply type_check_reads.
Qed.

(** X11.  valueToInt on a live handle of a value gives back the integer
    value of what the engine's integer conversion produced.  The result of
    the conversion is used unchecked: when the conversion throws or yields
    nothing, the call goes on through an empty handle and has no defined
    result. *)
Theorem valueToInt_converts_or_faults (w : world K) (i p : Z) (v : value K)
    (converted : completion (value K) (value K)) (h1 : engine_heap K) :
  globals w !! p = Some (OfValue (Some v)) ->
  Value_ToInteger E v (heap w) = (converted, h1) ->
  returned (valueToInt i p w) =
    match converted with
    | Normal n => Some (Value_IntegerValue E n h1).1
    | Thrown _ | Nothing => None
    end.
Proof.
  intros Hp Hc. straight. rewrite Hp. simpl. rewrite Hc. simpl.
  destruct converted as [n|e|]; simpl; [|reflexivity|reflexivity].
  by destruct (Value_IntegerValue E n h1) as [z h2].
Qed.

(** X12.  A handle that wraps nothing, as getProperty leaves in the
    exception slot for a key that is absent, cannot be inspected: the type
    tests, valueToInt and getProperty on it have no defined result.
    Disposing it is fine, frees the cell and makes no engine call. *)
Theorem handle_of_nothing (w : world K) (p : Z) :
  p <> NULL -> globals w !! p = Some (OfValue None) ->
  (forall i,
     returned (isNull i p w) = None /\ returned (isUndefined i p w) = None /\
     returned (isBoolean i p w) = None /\ returned (isNumber i p w) = None /\
     returned (isString i p w) = None /\ returned (isObject i p w) = None /\
     returned (valueToInt i p w) = None) /\
  (forall i k x, returned (getProperty i p k x w) = None) /\
  (exists w', disposeValue p w = Ret tt w' /\ globals w' = delete p (globals w) /\
              trace w' = trace w).
Proof.
  intros Hp Hn. assert ((p =? NULL) = false) as Hpb by lia.
  split; [|split].
  - intros i. repeat split; straight; rewrite Hn; reflexivity.
  - intros i k x. run. rewrite Hn. reflexivity.
  - straight. rewrite Hpb, Hn. simpl. eexists. split; [reflexivity|]. done.
Qed.

End Introspection.

Section Reentrancy.
Context {K : Carriers} {E : Engine K}.
Variable swiftCallback : Z -> Z -> list Z -> Z -> Z -> M K unit.

Lemma subsequence_weaken want x have :
  subsequence (x :: want) have = true -> subsequence want have = true.
Proof.
  revert want x. induction have as [|y have IH]; intros want x; [done|].
  destruct want as [|z want]; [done|]. simpl.
  destruct (decide (x = y)) as [->|Hxy].
  - intros Hs. destruct (decide (z = y)) as [->|Hzy]; [by eapply IH|done].
  - intros Hs. destruct (decide (z = y)) as [->|Hzy].
    + eapply IH. eapply IH. exact Hs.
    + eapply IH. exact Hs.
Qed.

Lemma subsequence_push want y have :
  subsequence want have = true -> subsequence want (y :: have) = true.
Proof.
  destruct want as [|x want]; [done|]. simpl. intros Hs.
  destruct (decide (x = y)) as [->|Hxy]; [by eapply subsequence_weaken|done].
Qed.

(** Guards taken on top of a cover leave the cover in place. *)
Lemma covered_push gi held : covered held = true -> covered (gi :: held) = true.
Proof.
  unfold covered. rewrite !existsb_exists. intros (g & Hin & Hs).
  exists g. split; [by right|]. by apply subsequence_push.
Qed.

Lemma keeps_promote held isolate (args : list (value K)) :
  covered held = true -> keeps held (promote isolate args).
Proof.
  intros Hc. induction args as [|a rest IH]; simpl; [apply keeps_ret|].
  apply keeps_bind; [by apply keeps_new_Global|intros p].
  apply keeps_bind; [done|intros ps]. apply keeps_ret.
Qed.

Lemma keeps_dispatch held (i id : Z) values (count sink : Z) :
  keeps (K:=K) held (emit (Dispatch i id values count sink)).
Proof. intros w. exists [Dispatch i id values count sink]. done. Qed.

Lemma keeps_answer held (s : setter) (i p : Z) :
  covered held = true -> keeps held (answer s i p).
Proof.
  intros Hc.
  assert (forall r, keeps (K:=K) held (ReturnValue_Set p r)) as Hset.
  { intros r w. exists [Call N_ReturnValue_Set]. simpl. by rewrite Hc. }
  destruct s; simpl; try apply Hset.
  unfold setReturnValueString. apply keeps_bind; [by apply keeps_call|intros]. apply Hset.
Qed.

(** X14.  The callback keeps the guard discipline of its caller.  Entered
    with lock, isolate scope and handle scope held, as they are while the
    engine runs a script, it makes its engine calls under that cover, opens
    one more handle scope for the dispatch, and closes it again before it
    returns, provided the dispatch function itself keeps the discipline
    with that scope on top. *)
Theorem callback_is_covered_by_its_caller (held : list (guard * Z))
    (info : FunctionCallbackInfo) :
  covered held = true ->
  (forall id values count,
     keeps ((HandleScope, GetIsolate info) :: held)
       (swiftCallback (GetIsolate info) id values count (GetReturnValue info))) ->
  keeps held (callback swiftCallback info).
Proof.
  intros Hc Hhost. unfold callback.
  apply keeps_bind; [by apply keeps_call|intros id].
  apply keeps_within.
  apply keeps_bind; [apply keeps_promote; by apply covered_push|intros values].
  apply keeps_bind; [apply keeps_dispatch|intros _]. apply Hhost.
Qed.

(** X15.  Every setReturnValue function returns, and writes the sink it
    is given and nothing else of the cells, handlers and caller memory.  A
    second answer to the same sink replaces the first: the sink holds what
    the last setter put there. *)
Theorem last_answer_wins (s1 s2 : setter) (i p : Z) (w : world K) :
  exists w1 w2,
    answer s1 i p w = Ret tt w1 /\ answer s2 i p w1 = Ret tt w2 /\
    returns w1 = <[p := answered s1 i (heap w)]> (returns w) /\
    returns w2 = <[p := answered s2 i (heap w1)]> (returns w) /\
    globals w2 = globals w /\ handlers w2 = handlers w /\
    bytes w2 = bytes w /\ slots w2 = slots w.
Proof.
  assert (forall s (w0 : world K), exists w',
            answer s i p w0 = Ret tt w' /\
            returns w' = <[p := answered s i (heap w0)]> (returns w0) /\
            globals w' = globals w0 /\ handlers w' = handlers w0 /\
            bytes w' = bytes w0 /\ slots w' = slots w0) as Hone.
  { intros s w0. destruct s; simpl;
      cbv [setReturnValueUndefined setReturnValueNull setReturnValueBoolean
           setReturnValueNumber setReturnValueString setReturnValueEmptyString
           ReturnValue_Set bind call]; simpl;
      try (eexists; split; [reflexivity|]; repeat split; done).
    destruct (String_NewFromUtf8 E i utf8 (heap w0)) as [v h]. simpl.
    eexists; split; [reflexivity|]; repeat split; done. }
  destruct (Hone s1 w) as (w1 & H1 & Hr1 & Hg1 & Hh1 & Hb1 & Hs1).
  destruct (Hone s2 w1) as (w2 & H2 & Hr2 & Hg2 & Hh2 & Hb2 & Hs2).
  exists w1, w2. split; [done|]. split; [done|]. split; [done|].
  split; [by rewrite Hr2, Hr1, insert_insert_eq|]. repeat split; congruence.
Qed.

End Reentrancy.

(** ** Further properties on the miniature engine *)

(** [dispose_frees_exactly_one_cell] at the value handle of [Mini.with_number]. *)
Lemma dispose_witness :
  3 <> NULL /\
  globals Mini.with_number !! 3
    = Some (OfValue (K:=Mini.carriers) (Some (Mini.JInteger 42))) /\
  exists w', disposeValue 3 Mini.with_number = Ret tt w' /\
    globals w' !! 3 = None /\
    (forall q, q <> 3 -> globals w' !! q = globals Mini.with_number !! q).
Proof.
  assert (3 <> NULL) as Hp by discriminate.
  assert (globals Mini.with_number !! 3
          = Some (OfValue (K:=Mini.carriers) (Some (Mini.JInteger 42)))) as Hc
    by (vm_compute; reflexivity).
  split; [exact Hp|]. split; [exact Hc|].
  destruct (dispose_frees_exactly_one_cell Mini.with_number 3 _ Hp Hc)
    as (w' & Hd & Hg & Hq & _).
  exists w'. split; [exact Hd|]. split; [exact Hg|exact Hq].
Defined.

(** [dangling_handle_is_undefined] at the handle disposed in [Mini.disposed]:
    reading the value and disposing once more are both undefined. *)
Lemma dangling_witness :
  3 <> NULL /\ globals Mini.disposed !! 3 = None /\
  returned (valueToInt Mini.isolate 3 Mini.disposed) = None /\
  returned (disposeValue 3 Mini.disposed) = None.
Proof.
  assert (3 <> NULL) as Hp by discriminate.
  assert (globals Mini.disposed !! 3 = None) as Hd by (vm_compute; reflexivity).
  split; [exact Hp|]. split; [exact Hd|].
  destruct (dangling_handle_is_undefined Mini.disposed 3 Hp Hd)
    as (Hi & _ & _ & _ & _ & _ & _ & Hv & _).
  destruct (Hi Mini.isolate) as (_ & _ & _ & _ & _ & _ & Hn & _).
  split; [exact Hn|exact Hv].
Defined.


(** [type_tests_only_read] at the number behind handle 3. *)
Lemma type_tests_witness :
  globals Mini.with_number !! 3
    = Some (OfValue (K:=Mini.carriers) (Some (Mini.JInteger 42))) /\
  (exists w', isNumber Mini.isolate 3 Mini.with_number
                = Ret (Value_IsNumber Mini.engine (Mini.JInteger 42)) w' /\
              only_traced Mini.with_number w') /\
  (exists w', isString Mini.isolate 3 Mini.with_number
                = Ret (Value_IsString Mini.engine (Mini.JInteger 42)) w' /\
              only_traced Mini.with_number w').
Proof.
  assert (globals Mini.with_number !! 3
          = Some (OfValue (K:=Mini.carriers) (Some (Mini.JInteger 42)))) as Hp
    by (vm_compute; reflexivity).
  split; [exact Hp|].
  destruct (type_tests_only_read Mini.with_number Mini.isolate 3 _ Hp)
    as (_ & _ & _ & Hn & Hs & _).
  split; [exact Hn|exact Hs].
Defined.

(** [valueToInt_converts_or_faults] at the number behind handle 3. *)
Lemma valueToInt_witness :
  globals Mini.with_number !! 3
    = Some (OfValue (K:=Mini.carriers) (Some (Mini.JInteger 42))) /\
  Value_ToInteger Mini.engine (Mini.JInteger 42) (heap Mini.with_number)
    = (Normal (Mini.JInteger 42), heap Mini.with_number) /\
  returned (valueToInt Mini.isolate 3 Mini.with_number)
    = Some (Value_IntegerValue Mini.engine (Mini.JInteger 42)
              (heap Mini.with_number)).1.
Proof.
  assert (globals Mini.with_number !! 3
          = Some (OfValue (K:=Mini.carriers) (Some (Mini.JInteger 42)))) as Hp
    by (vm_compute; reflexivity).
  assert (Value_ToInteger Mini.engine (Mini.JInteger 42) (heap Mini.with_number)
          = (Normal (Mini.JInteger 42), heap Mini.with_number)) as Hc
    by (vm_compute; reflexivity).
  split; [exact Hp|]. split; [exact Hc|].
  exact (valueToInt_converts_or_faults Mini.with_number Mini.isolate 3 _ _ _ Hp Hc).
Defined.

(** The miniature engine prints a number in decimal: the number 42 behind
    handle 3 has a UTF-8 length of 2, and its integer value is 42. *)
Lemma number_through_the_bridge :
  returned (getUtf8StringLength Mini.isolate 3 Mini.with_number) = Some 2 /\
  returned (valueToInt Mini.isolate 3 Mini.with_number) = Some 42.
Proof. split; vm_compute; reflexivity. Qed.

(** [handle_of_nothing] at the exception handle of [Mini.looked_up]. *)
Lemma handle_of_nothing_witness :
  4 <> NULL /\
  globals Mini.looked_up !! 4 = Some (OfValue (K:=Mini.carriers) None) /\
  returned (isUndefined Mini.isolate 4 Mini.looked_up) = None /\
  exists w', disposeValue 4 Mini.looked_up = Ret tt w' /\
             trace w' = trace Mini.looked_up.
Proof.
  assert (4 <> NULL) as Hp by discriminate.
  assert (globals Mini.looked_up !! 4 = Some (OfValue (K:=Mini.carriers) None)) as Hn
    by (vm_compute; reflexivity).
  split; [exact Hp|]. split; [exact Hn|].
  destruct (handle_of_nothing Mini.looked_up 4 Hp Hn) as (Hi & _ & w' & Hd & _ & Ht).
  destruct (Hi Mini.isolate) as (_ & Hu & _).
  split; [exact Hu|]. exists w'. split; [exact Hd|exact Ht].
Defined.

(** [callback_is_covered_by_its_caller] at [Mini.a_call], made while evaluate
    runs a script, with the host that answers "ok". *)
Lemma callback_cover_witness :
  covered Mini.inside_evaluate = true /\
  (forall id values count,
     keeps ((HandleScope, GetIsolate Mini.a_call) :: Mini.inside_evaluate)
       (Mini.swiftCallback (GetIsolate Mini.a_call) id values count
          (GetReturnValue Mini.a_call))) /\
  keeps Mini.inside_evaluate (callback Mini.swiftCallback Mini.a_call).
Proof.
  assert (covered Mini.inside_evaluate = true) as Hc by (vm_compute; reflexivity).
  assert (forall id values count,
            keeps ((HandleScope, GetIsolate Mini.a_call) :: Mini.inside_evaluate)
              (Mini.swiftCallback (GetIsolate Mini.a_call) id values count
                 (GetReturnValue Mini.a_call))) as Hh.
  { intros id values count.
    apply (keeps_answer ((HandleScope, GetIsolate Mini.a_call) :: Mini.inside_evaluate)
             (Answer_String "ok")).
    apply covered_push. exact Hc. }
  split; [exact Hc|]. split; [exact Hh|].
  exact (callback_is_covered_by_its_caller Mini.swiftCallback Mini.inside_evaluate
           Mini.a_call Hc Hh).
Defined.
